(** * Writers_dashboard: the reorganisation planner and the link polisher

    A shallow embedding of [src/repo_reorg.py] and [tools/polish_links.py]
    and the properties of their planning, move and link-repair passes.

    Conventions of the embedding:
    - text is [string] (8-bit characters); [str.lower], [str.strip] and the
      character classes of [re] act on the ASCII range;
    - a [pathlib.Path] is the list of its components below the filesystem
      root, so every path here is absolute and free of symbolic links;
    - an uncaught Python exception is the [Raise] outcome of [result];
    - the filesystem is a finite map of regular files together with a finite
      set of directories. *)

From Stdlib Require Import ZArith Ascii.
From stdpp Require Import base list strings gmap gmultiset pretty.

Local Open Scope Z_scope.

(** ** Outcomes of fallible code *)

Inductive result (A : Type) : Type :=
  | Ok (a : A)
  | Raise (msg : string).
Arguments Ok {A} a.
Arguments Raise {A} msg.

Definition rbind {A B} (r : result A) (k : A → result B) : result B :=
  match r with
  | Ok a => k a
  | Raise msg => Raise msg
  end.

Notation "'try!' x := r 'in' k" := (rbind r (λ x, k))
  (at level 10, x binder, r at level 100, k at level 200, only parsing).

(** ** Python strings *)

Module Py.

Definition is_upper (c : ascii) : bool :=
  let n := N_of_ascii c in (65 <=? n)%N && (n <=? 90)%N.

Definition is_alpha (c : ascii) : bool :=
  let n := N_of_ascii c in
  ((65 <=? n)%N && (n <=? 90)%N) || ((97 <=? n)%N && (n <=? 122)%N).

Definition is_digit (c : ascii) : bool :=
  let n := N_of_ascii c in (48 <=? n)%N && (n <=? 57)%N.

(** [\w] of [re] *)
Definition is_word (c : ascii) : bool :=
  is_alpha c || is_digit c || bool_decide (c = "_"%char).

(** [\s] of [re] and the characters [str.strip] removes *)
Definition is_space (c : ascii) : bool :=
  let n := N_of_ascii c in
  ((9 <=? n)%N && (n <=? 13)%N) || ((28 <=? n)%N && (n <=? 32)%N).

Definition lower_char (c : ascii) : ascii :=
  if is_upper c then ascii_of_N (N_of_ascii c + 32) else c.

(** [s.lower()] *)
Fixpoint lower (s : string) : string :=
  match s with
  | EmptyString => EmptyString
  | String c s' => String (lower_char c) (lower s')
  end.

(** [s.startswith(p)] *)
Fixpoint startswith (p s : string) : bool :=
  match p, s with
  | EmptyString, _ => true
  | String a p', String b s' => bool_decide (a = b) && startswith p' s'
  | String _ _, EmptyString => false
  end.

(** [k in s] *)
Fixpoint contains (k s : string) : bool :=
  startswith k s ||
  match s with
  | EmptyString => false
  | String _ s' => contains k s'
  end.

(** [s.endswith(p)] *)
Definition endswith (p s : string) : bool :=
  startswith (String.rev p) (String.rev s).

(** [s.count(c)] for a one-character [c] *)
Fixpoint count_char (c : ascii) (s : string) : nat :=
  match s with
  | EmptyString => 0%nat
  | String a s' => ((if bool_decide (a = c) then 1 else 0) + count_char c s')%nat
  end.

(** [s.replace(a, b)] for one-character [a] and [b] *)
Fixpoint replace_char (a b : ascii) (s : string) : string :=
  match s with
  | EmptyString => EmptyString
  | String c s' => String (if bool_decide (c = a) then b else c) (replace_char a b s')
  end.

(** [s.find(c)] and [s.rfind(c)]; [None] is Python's [-1] *)
Fixpoint find_char (c : ascii) (s : string) : option nat :=
  match s with
  | EmptyString => None
  | String a s' => if bool_decide (a = c) then Some 0%nat else S <$> find_char c s'
  end.

Fixpoint rfind_char (c : ascii) (s : string) : option nat :=
  match s with
  | EmptyString => None
  | String a s' =>
      match rfind_char c s' with
      | Some i => Some (S i)
      | None => if bool_decide (a = c) then Some 0%nat else None
      end
  end.

(** [s[:n]] and [s[n:]] *)
Fixpoint take (n : nat) (s : string) : string :=
  match n, s with
  | S n', String a s' => String a (take n' s')
  | _, _ => EmptyString
  end.

Fixpoint drop (n : nat) (s : string) : string :=
  match n, s with
  | S n', String _ s' => drop n' s'
  | _, _ => s
  end.

(** [s.lstrip()], [s.rstrip()] and [s.strip()] *)
Fixpoint lstrip (s : string) : string :=
  match s with
  | String a s' => if is_space a then lstrip s' else s
  | EmptyString => EmptyString
  end.

Definition strip (s : string) : string :=
  String.rev (lstrip (String.rev (lstrip s))).

(** [sep.join(parts)] *)
Fixpoint join (sep : string) (parts : list string) : string :=
  match parts with
  | [] => ""
  | [p] => p
  | p :: rest => p +:+ sep +:+ join sep rest
  end.

(** [s.split(c)] for a one-character separator: never empty *)
Fixpoint split_char (c : ascii) (s : string) : list string :=
  match s with
  | EmptyString => [""]
  | String a s' =>
      if bool_decide (a = c) then "" :: split_char c s'
      else match split_char c s' with
           | w :: ws => String a w :: ws
           | [] => [String a ""]
           end
  end.

(** Lexicographic comparison of strings by character code, [a <= b] *)
Definition str_le (a b : string) : bool := String.leb a b.

End Py.

(** ** pathlib and os.path on POSIX *)

Module Path.

(** A path is the list of its components below [/]. *)

(** The components [PurePosixPath(s)] keeps: empty ones and [.] go. *)
Definition parse_parts (s : string) : list string :=
  filter (λ p, p ≠ "" ∧ p ≠ ".") (Py.split_char "/" s).

(** [PurePosixPath(s).is_absolute()] *)
Definition is_absolute (s : string) : bool := Py.startswith "/" s.

(** [p.name] *)
Definition name (p : list string) : string := default "" (last p).

(** [p.parent]; the root is its own parent *)
Definition parent (p : list string) : list string := removelast p.

(** [PurePath.suffix] and [PurePath.stem] of a final component: the text
    from its last dot, unless that dot opens or closes the name *)
Definition suffix_of_name (n : string) : string :=
  match Py.rfind_char "." n with
  | Some i =>
      if bool_decide (0 < i)%nat && bool_decide (i < String.length n - 1)%nat
      then Py.drop i n else ""
  | None => ""
  end.

Definition stem_of_name (n : string) : string :=
  match Py.rfind_char "." n with
  | Some i =>
      if bool_decide (0 < i)%nat && bool_decide (i < String.length n - 1)%nat
      then Py.take i n else n
  | None => n
  end.

Definition suffix (p : list string) : string := suffix_of_name (name p).
Definition stem (p : list string) : string := stem_of_name (name p).

(** [str(p)] of an absolute path and [p.as_posix()] of a relative one *)
Definition to_str (p : list string) : string := "/" +:+ Py.join "/" p.
Definition as_posix (p : list string) : string :=
  match p with [] => "." | _ => Py.join "/" p end.

(** [p.relative_to(root)] for a [p] below [root] *)
Definition relative_to (root p : list string) : list string :=
  List.skipn (List.length root) p.

(** [p.relative_to(root)] where [p] may lie elsewhere *)
Definition relative_to_checked (root p : list string) : result (list string) :=
  if bool_decide (root `prefix_of` p) then Ok (relative_to root p)
  else Raise "ValueError: not in the subpath".

(** [p.with_suffix(s)] for an [s] that opens with a dot and holds no slash *)
Definition with_suffix (p : list string) (s : string) : list string :=
  let n := name p in
  let old := suffix_of_name n in
  let n' := if bool_decide (old = "") then n +:+ s
            else Py.take (String.length n - String.length old) n +:+ s in
  parent p ++ [n'].

(** Order of paths: component by component *)
Fixpoint path_le (a b : list string) : bool :=
  match a, b with
  | [], _ => true
  | _ :: _, [] => false
  | x :: a', y :: b' =>
      if bool_decide (x = y) then path_le a' b'
      else Py.str_le x y
  end.

(** [base / s]: an absolute [s] replaces [base] *)
Definition joinpath (base : list string) (s : string) : list string :=
  if is_absolute s then parse_parts s else base ++ parse_parts s.

(** [p.resolve()] without symbolic links: [..] steps up, and stays at
    the root there *)
Definition resolve (p : list string) : list string :=
  foldl (λ acc c, if bool_decide (c = "..") then removelast acc else acc ++ [c]) [] p.

(** [a in p.parents] *)
Definition is_proper_ancestor (a p : list string) : bool :=
  bool_decide (a `prefix_of` p) && bool_decide (List.length a < List.length p)%nat.

(** [os.path.commonprefix] on two component lists, as a length *)
Fixpoint common_len (a b : list string) : nat :=
  match a, b with
  | x :: a', y :: b' => if bool_decide (x = y) then S (common_len a' b') else 0%nat
  | _, _ => 0%nat
  end.

(** [os.path.relpath(str(target), start=str(start))] *)
Definition relpath (target start : list string) : string :=
  let i := common_len start target in
  let rel_list := replicate (List.length start - i) ".." ++ List.skipn i target in
  match rel_list with
  | [] => "."
  | _ => Py.join "/" rel_list
  end.

End Path.


(** ** [sorted(xs, key=..., reverse=True)]

    Python's sort is stable and stays stable under [reverse=True]: the
    result is in descending key order and elements with equal keys keep
    the order they had in [xs]. *)

Section sorting.
Context {A K : Type} (key : A → K).

(** [x] goes behind every element that [stays] in front of it, and so
    behind every element with an equal key met before it. *)
Fixpoint insert_behind (stays : K → K → bool) (x : A) (l : list A) : list A :=
  match l with
  | [] => [x]
  | y :: l' =>
      if stays (key y) (key x) then y :: insert_behind stays x l' else x :: y :: l'
  end.

Definition sort_stable (stays : K → K → bool) (l : list A) : list A :=
  foldl (λ acc x, insert_behind stays x acc) [] l.

(** [sorted(l, key=key)] for keys ordered by [le] *)
Definition sorted (le : K → K → bool) (l : list A) : list A :=
  sort_stable (λ ky kx, le ky kx) l.

(** [sorted(l, key=key, reverse=True)] *)
Definition sorted_reverse (le : K → K → bool) (l : list A) : list A :=
  sort_stable (λ ky kx, le kx ky) l.

End sorting.

(** Lexicographic order on the triples Python compares as tuples *)
Definition triple_le (a b : Z * Z * string) : bool :=
  let '(a1, a2, a3) := a in
  let '(b1, b2, b3) := b in
  if bool_decide (a1 = b1)
  then if bool_decide (a2 = b2) then Py.str_le a3 b3 else (a2 <? b2)
  else (a1 <? b1).

(** ** The filesystem *)

Module FS.

(** Regular files with their content (or its digest) and directories. *)
Record t := mk {
  files : gmap (list string) string;
  dirs : gset (list string);
}.

(** [p.exists()]: the root always does *)
Definition exists_ (fs : t) (p : list string) : bool :=
  bool_decide (is_Some (files fs !! p)) || bool_decide (p ∈ dirs fs) || bool_decide (p = []).

(** [p.is_file()] *)
Definition is_file (fs : t) (p : list string) : bool :=
  bool_decide (is_Some (files fs !! p)).

(** The non-empty prefixes of [p]: [p] and its ancestors below the root *)
Definition ancestors_or_self (p : list string) : list (list string) :=
  (λ n, List.firstn n p) <$> seq 1 (List.length p).

(** [p.mkdir(parents=True, exist_ok=True)]: a regular file on the way
    raises and creates nothing. *)
Definition mkdir_p (fs : t) (p : list string) : result t :=
  if existsb (is_file fs) (ancestors_or_self p)
  then Raise "FileExistsError"
  else Ok (mk (files fs) (dirs fs ∪ list_to_set (ancestors_or_self p))).

(** [os.rename(src, dest)] of a regular file *)
Definition rename_file (fs : t) (src dest : list string) (content : string) : t :=
  mk (<[dest := content]> (delete src (files fs))) (dirs fs).

(** [shutil.move(src, dest)] of a regular file: into [dest] when that is
    a directory (and the name is free there), onto [dest] otherwise,
    replacing a regular file that is there.  Every source the planner
    hands over was scanned as a regular file; any other source raises
    here. *)
Definition shutil_move (fs : t) (src dest : list string) : result t :=
  match files fs !! src with
  | None => Raise "shutil.move: source is not a regular file"
  | Some content =>
      if bool_decide (dest ∈ dirs fs) || bool_decide (dest = [])
      then let real_dst := dest ++ [Path.name src] in
           if exists_ fs real_dst
           then Raise "shutil.Error: destination path already exists"
           else Ok (rename_file fs src real_dst content)
      else Ok (rename_file fs src dest content)
  end.

(** [p.write_text(text)] *)
Definition write_text (fs : t) (p : list string) (text : string) : t :=
  mk (<[p := text]> (files fs)) (dirs fs).

(** The multiset of file contents in the tree *)
Definition contents (fs : t) : gmultiset string :=
  list_to_set_disj ((map_to_list (files fs)).*2).

End FS.

(** ** repo_reorg.py *)

Module Reorg.

Definition REPO_LAYOUT_KEYS : list string :=
  ["Build_plan"; "docs"; "spec"; "src"; "fixtures"; "golden"; "tools"; "reports"; "archive"].

Definition ARCHIVE_SUBFOLDERS : list string :=
  ["archive/_duplicates"; "archive/_not_needed"; "archive/_unknown_review"].

Definition NOT_NEEDED_EXTENSIONS : gset string :=
  list_to_set [".zip"; ".7z"; ".rar"; ".bak"; ".tmp"; ".log"].

Definition KEEP_EXTENSIONS : gset string :=
  list_to_set [".html"; ".css"; ".js"; ".json"; ".md"; ".txt";
               ".png"; ".jpg"; ".jpeg"; ".webp"; ".gif"; ".svg";
               ".py"; ".ts"; ".tsx"; ".jsx"; ".yaml"; ".yml";
               ".csv"].

Definition SKIP_DIRS : gset string :=
  list_to_set [".git"; ".svn"; ".hg"; "__pycache__"; "node_modules"; ".venv"].

Definition BUILD_PLAN_HINTS : list string :=
  ["Build_plan"; "MASTER_BUILD_PLAN"; "MICROSTEP"; "microsteps"; "module";
   "m0"; "m1"; "m2"; "m3"; "m4"; "m5"; "m6"; "m7"; "m8"].

Definition CANONICAL_ROOT_FILES : gset string :=
  list_to_set ["MASTER_BUILD_PLAN_CONSOLIDATED.html";
               "MASTER_BUILD_PLAN_CONSOLIDATED_V2.html";
               Py.lower "MASTER_BUILD_PLAN_CONSOLIDATED.html";
               "index.html"].

(** The values of [FileRecord.action] *)
Inductive Action :=
  | KEEP_IN_PLACE
  | MOVE_TO_DEST
  | MOVE_TO_ARCHIVE_DUPLICATE
  | MOVE_TO_ARCHIVE_NOT_NEEDED
  | MOVE_TO_ARCHIVE_UNKNOWN.

(** [mtime] is kept as the number [stat] gave; the source stores its
    ISO rendering, which only the reports read. *)
Record FileRecord := mkFileRecord {
  rel_path : string;
  abs_path : list string;
  size : Z;
  mtime : Z;
  sha256 : option string;
  action : Action;
  reason : string;
  dest_rel_path : option string;
}.

Definition set_sha256 (r : FileRecord) (d : option string) : FileRecord :=
  mkFileRecord (rel_path r) (abs_path r) (size r) (mtime r) d (action r) (reason r) (dest_rel_path r).

Definition set_reason (r : FileRecord) (why : string) : FileRecord :=
  mkFileRecord (rel_path r) (abs_path r) (size r) (mtime r) (sha256 r) (action r) why (dest_rel_path r).

(** The three assignments every branch of the planning loop makes *)
Definition decide (r : FileRecord) (a : Action) (why : string) (dest : string) : FileRecord :=
  mkFileRecord (rel_path r) (abs_path r) (size r) (mtime r) (sha256 r) a why (Some dest).

(** [any(k in s for k in ks)] *)
Definition any_in (ks : list string) (s : string) : bool :=
  existsb (λ k, Py.contains k s) ks.

Definition is_in_skip_dir (parts : list string) : bool :=
  existsb (λ part, bool_decide (part ∈ SKIP_DIRS)) parts.

Definition normalize_rel (root p : list string) : string :=
  Py.replace_char "\" "/" (Path.as_posix (Path.relative_to root p)).

Definition choose_destination (root : list string) (rel name : string) : string * string :=
  let rel_l := Py.lower rel in
  let name_l := Py.lower name in
  let ext := Py.lower (Path.suffix (Path.parse_parts name)) in
  let base := Path.name (Path.parse_parts name) in
  if bool_decide (name ∈ CANONICAL_ROOT_FILES) || bool_decide (name_l ∈ CANONICAL_ROOT_FILES)
  then ("Build_plan/" +:+ name, "Canonical plan entrypoint")
  else if Py.startswith "build_plan/" rel_l
  then (Py.replace_char "\" "/" rel, "Already in Build_plan")
  else if bool_decide (ext = ".html") && any_in (Py.lower <$> BUILD_PLAN_HINTS) rel_l
  then ("Build_plan/" +:+ base, "HTML appears to be build-plan related")
  else if bool_decide (ext = ".md")
  then if any_in ["contract"; "schema"; "spec"] rel_l
       then ("spec/" +:+ base, "Spec-like markdown")
       else ("docs/" +:+ base, "General markdown documentation")
  else if bool_decide (ext ∈ ({[ ".json"; ".yaml"; ".yml" ]} : gset string))
          && any_in ["schema"; "contract"; "spec"] rel_l
  then ("spec/" +:+ base, "Schema/contract file")
  else if bool_decide (ext ∈ ({[ ".py"; ".js"; ".ts"; ".tsx"; ".jsx" ]} : gset string))
  then if any_in ["tool"; "script"; "build"; "validate"; "export"] rel_l
       then ("tools/" +:+ base, "Tooling script")
       else ("src/" +:+ base, "Source code")
  else if bool_decide (ext ∈ ({[ ".png"; ".jpg"; ".jpeg"; ".webp"; ".gif"; ".svg" ]} : gset string))
  then if any_in ["build_plan"; "micro"; "reader"; "module";
                  "m0"; "m1"; "m2"; "m3"; "m4"; "m5"; "m6"; "m7"; "m8"] rel_l
       then ("Build_plan/assets/" +:+ base, "Build-plan asset image")
       else ("docs/assets/" +:+ base, "Documentation asset image")
  else if any_in ["fixture"; "toybook"; "book1window"] rel_l
  then ("fixtures/" +:+ base, "Fixture file")
  else if any_in ["golden"; "snapshot"; "expected_output"] rel_l
  then ("golden/" +:+ base, "Golden output")
  else if bool_decide (ext ∈ KEEP_EXTENSIONS)
  then ("docs/misc/" +:+ base, "Misc keep-extension file")
  else ("archive/_unknown_review/" +:+ base, "Unknown file type; review").

Definition classify_not_needed (path : list string) (rel : string) : option string :=
  let ext := Py.lower (Path.suffix path) in
  let rel_l := Py.lower rel in
  if bool_decide (ext ∈ NOT_NEEDED_EXTENSIONS)
  then Some ("Packaged artifact (" +:+ ext +:+ ")")
  else if any_in ["old"; "backup"; "export"; "exports"; "tmp"; "temp"] rel_l
          && negb (Py.contains "build_plan" rel_l)
  then Some "Looks like export/backup/temp"
  else None.

(** *** The scan *)

(** What [root.rglob("*")] yields, with what [is_dir], [stat] and
    [sha256_file] answer for each path.  [e_stat] is [(st_size,
    st_mtime)], or [None] when [stat] raises; [e_hash] is the digest, or
    the exception that reading the file raises. *)
Record Entry := mkEntry {
  e_path : list string;
  e_is_dir : bool;
  e_stat : option (Z * Z);
  e_hash : result string;
}.

(** [hash_map]: digest to the paths bearing it, in scan order; each path
    goes with the [st_mtime] that [stat] returns for it. *)
Definition setdefault_append (hm : gmap string (list (list string * Z)))
    (sha : string) (p : list string * Z) : gmap string (list (list string * Z)) :=
  <[sha := default [] (hm !! sha) ++ [p]]> hm.

Definition scan_entry (root : list string) (hashing : bool)
    (st : list FileRecord * gmap string (list (list string * Z))) (e : Entry)
    : result (list FileRecord * gmap string (list (list string * Z))) :=
  let '(records, hash_map) := st in
  if e_is_dir e then Ok st
  else
    let rel := normalize_rel root (e_path e) in
    if is_in_skip_dir (Path.parse_parts rel) then Ok st
    else
      match e_stat e with
      | None => Raise "OSError: stat"
      | Some (st_size, st_mtime) =>
          let rec := mkFileRecord rel (e_path e) st_size st_mtime None KEEP_IN_PLACE "" None in
          if hashing then
            match e_hash e with
            | Ok digest =>
                Ok (records ++ [set_sha256 rec (Some digest)],
                    setdefault_append hash_map digest (e_path e, st_mtime))
            | Raise exc =>
                Ok (records ++ [set_reason rec ("Hash failed: " +:+ exc)], hash_map)
            end
          else Ok (records ++ [rec], hash_map)
      end.

Fixpoint scan_loop (root : list string) (hashing : bool) (entries : list Entry)
    (st : list FileRecord * gmap string (list (list string * Z)))
    : result (list FileRecord * gmap string (list (list string * Z))) :=
  match entries with
  | [] => Ok st
  | e :: rest => try! st' := scan_entry root hashing st e in scan_loop root hashing rest st'
  end.

Definition scan (root : list string) (hashing : bool) (entries : list Entry) :=
  scan_loop root hashing entries ([], ∅).

(** *** Duplicates *)

(** The paths of one digest that are not kept: all but the head of the
    list sorted by [st_mtime], newest first. *)
Definition duplicates_of (paths : list (list string * Z)) : list (list string) :=
  if bool_decide (1 < length paths)%nat
  then Path.resolve <$> (tail (sorted_reverse snd Z.leb paths)).*1
  else [].

Definition find_duplicates (hashing : bool)
    (hash_map : gmap string (list (list string * Z))) : gset (list string) :=
  if hashing
  then ⋃ ((λ kv, list_to_set (duplicates_of kv.2)) <$> map_to_list hash_map)
  else ∅.

(** *** The plan *)

(** Truth value of an [Optional[str]] *)
Definition truthy (o : option string) : bool :=
  match o with
  | Some s => negb (bool_decide (s = ""))
  | None => false
  end.

(** One turn of the planning loop: the decided record and the move it
    appends to [actions], if any. *)
Definition plan_record (root : list string) (hashing : bool) (dup_paths : gset (list string))
    (rec : FileRecord) : FileRecord * list (list string * list string) :=
  let src := abs_path rec in
  let rel := rel_path rec in
  let name := Path.name src in
  let rel_l := Py.lower rel in
  if hashing && bool_decide (Path.resolve src ∈ dup_paths)
  then
    let dest_rel := "archive/_duplicates/" +:+ name in
    (decide rec MOVE_TO_ARCHIVE_DUPLICATE "Duplicate content (sha256 match)" dest_rel,
     [(src, Path.joinpath root dest_rel)])
  else
    let not_needed_reason := classify_not_needed src rel in
    if truthy not_needed_reason && negb (Py.startswith "archive/" rel_l)
    then
      let dest_rel := "archive/_not_needed/" +:+ name in
      (decide rec MOVE_TO_ARCHIVE_NOT_NEEDED (default "" not_needed_reason) dest_rel,
       [(src, Path.joinpath root dest_rel)])
    else
      let '(dest_rel, why) := choose_destination root rel name in
      if bool_decide (normalize_rel root src = dest_rel)
      then (decide rec KEEP_IN_PLACE why dest_rel, [])
      else
        let a := if Py.startswith "archive/_unknown_review/" dest_rel
                 then MOVE_TO_ARCHIVE_UNKNOWN else MOVE_TO_DEST in
        (decide rec a why dest_rel, [(src, Path.joinpath root dest_rel)]).

Definition plan (root : list string) (hashing : bool) (dup_paths : gset (list string))
    (records : list FileRecord) : list FileRecord * list (list string * list string) :=
  let planned := plan_record root hashing dup_paths <$> records in
  (planned.*1, concat planned.*2).

(** *** Moving *)

(** The [while True] loop of [move_file], counting [i] up from its
    start; the fuel bounds the number of probes. *)
Fixpoint first_free (fs : FS.t) (parent : list string) (stem suffix : string)
    (i fuel : nat) : option (list string) :=
  match fuel with
  | O => None
  | S fuel' =>
      (* the new name has no slash: one component *)
      let candidate := parent ++ [stem +:+ "__" +:+ pretty i +:+ suffix] in
      if FS.exists_ fs candidate
      then first_free fs parent stem suffix (S i) fuel'
      else Some candidate
  end.

(** Every probe that fails is one more existing path, so one probe more
    than there are paths is enough. *)
Definition probes (fs : FS.t) : nat :=
  S (base.size (FS.files fs) + base.size (FS.dirs fs)).

(** A filesystem action ends with the tree it leaves and the exception
    that stopped it, if any. *)
Definition move_file (fs : FS.t) (src dest : list string) : FS.t * option string :=
  match FS.mkdir_p fs (Path.parent dest) with
  | Raise exc => (fs, Some exc)
  | Ok fs1 =>
      let target :=
        if FS.exists_ fs1 dest
        then first_free fs1 (Path.parent dest) (Path.stem dest) (Path.suffix dest) 2 (probes fs1)
        else Some dest in
      match target with
      | None => (fs1, Some "out of probes")
      | Some dest' =>
          match FS.shutil_move fs1 src dest' with
          | Ok fs2 => (fs2, None)
          | Raise exc => (fs1, Some exc)
          end
      end
  end.

Fixpoint safe_mkdirs (fs : FS.t) (ds : list (list string)) : FS.t * option string :=
  match ds with
  | [] => (fs, None)
  | d :: rest =>
      match FS.mkdir_p fs d with
      | Ok fs' => safe_mkdirs fs' rest
      | Raise exc => (fs, Some exc)
      end
  end.

Definition report_dir (root : list string) (stamp : string) : list string :=
  root ++ ["reports"; "reorg"; stamp].

(** The loop under "Execute moves" *)
Fixpoint execute_moves (rdir : list string) (fs : FS.t)
    (actions : list (list string * list string)) : FS.t * option string :=
  match actions with
  | [] => (fs, None)
  | (src, dst) :: rest =>
      if negb (FS.exists_ fs src) then execute_moves rdir fs rest
      else if Path.is_proper_ancestor rdir src then execute_moves rdir fs rest
      else
        match move_file fs src dst with
        | (fs', None) => execute_moves rdir fs' rest
        | (fs', Some exc) => (fs', Some exc)
        end
  end.

(** The [if args.apply:] block *)
Definition apply_changes (root : list string) (stamp : string) (fs : FS.t)
    (actions : list (list string * list string)) : FS.t * option string :=
  let planned_dirs := REPO_LAYOUT_KEYS ++ ARCHIVE_SUBFOLDERS in
  match safe_mkdirs fs ((Path.joinpath root <$> planned_dirs) ++ [report_dir root stamp]) with
  | (fs1, Some exc) => (fs1, Some exc)
  | (fs1, None) => execute_moves (report_dir root stamp) fs1 actions
  end.

(** [main], up to the reports: the records, the planned moves, and the
    tree as the run leaves it.  Writing the two report files is left to
    the serialisers. *)
Definition main (root : list string) (apply hashing : bool) (stamp : string)
    (entries : list Entry) (fs : FS.t)
    : FS.t * result (list FileRecord * list (list string * list string)) :=
  if negb (FS.exists_ fs root) then (fs, Raise "Root does not exist")
  else
    match scan root hashing entries with
    | Raise exc => (fs, Raise exc)
    | Ok (records, hash_map) =>
        let dup_paths := find_duplicates hashing hash_map in
        let '(records', actions) := plan root hashing dup_paths records in
        if apply then
          match apply_changes root stamp fs actions with
          | (fs', None) => (fs', Ok (records', actions))
          | (fs', Some exc) => (fs', Raise exc)
          end
        else (fs, Ok (records', actions))
    end.

End Reorg.

(** ** urllib.parse *)

Record UrlParts := mkUrlParts {
  u_scheme : string;
  u_netloc : string;
  u_path : string;
  u_params : string;
  u_query : string;
  u_fragment : string;
}.

(** The two library functions the polisher calls.  [urlparse] raises
    [ValueError] on some inputs. *)
Class Urllib := {
  urlparse : string → result UrlParts;
  unquote : string → string;
}.

(** A model of the library on ASCII text, used to run the polisher on
    examples: scheme, [//netloc], [#fragment], [?query], then the [;params]
    of the last segment; [%XX] decodes to the character of that code. *)
Module UrllibModel.

Definition scheme_char (c : ascii) : bool :=
  Py.is_alpha c || Py.is_digit c
  || bool_decide (c = "+"%char) || bool_decide (c = "-"%char) || bool_decide (c = "."%char).

Fixpoint all_chars (P : ascii → bool) (s : string) : bool :=
  match s with
  | EmptyString => true
  | String c s' => P c && all_chars P s'
  end.

Fixpoint remove_chars (P : ascii → bool) (s : string) : string :=
  match s with
  | EmptyString => EmptyString
  | String c s' => if P c then remove_chars P s' else String c (remove_chars P s')
  end.

Fixpoint lstrip_c0 (s : string) : string :=
  match s with
  | String c s' => if (N_of_ascii c <=? 32)%N then lstrip_c0 s' else s
  | EmptyString => EmptyString
  end.

(** [s.split(c, 1)] when [c] occurs in [s] *)
Definition split_once (c : ascii) (s : string) : string * string :=
  match Py.find_char c s with
  | Some i => (Py.take i s, Py.drop (S i) s)
  | None => (s, "")
  end.

Definition split_scheme (url : string) : string * string :=
  match Py.find_char ":" url, url with
  | Some (S i), String c0 _ =>
      if Py.is_alpha c0 && all_chars scheme_char (Py.take (S i) url)
      then (Py.lower (Py.take (S i) url), Py.drop (S (S i)) url)
      else ("", url)
  | _, _ => ("", url)
  end.

(** [_splitnetloc(url, 2)]: up to the first of [/ ? #] *)
Fixpoint netloc_len (s : string) : nat :=
  match s with
  | EmptyString => 0%nat
  | String c s' =>
      if bool_decide (c = "/"%char) || bool_decide (c = "?"%char) || bool_decide (c = "#"%char)
      then 0%nat else S (netloc_len s')
  end.

Definition uses_params : list string :=
  [""; "ftp"; "hdl"; "prospero"; "http"; "imap"; "https"; "shttp"; "rtsp";
   "rtspu"; "sip"; "sips"; "mms"; "sftp"; "tel"].

Definition splitparams (url : string) : string * string :=
  match Py.rfind_char "/" url with
  | Some j =>
      match Py.find_char ";" (Py.drop j url) with
      | Some i => (Py.take (j + i) url, Py.drop (S (j + i)) url)
      | None => (url, "")
      end
  | None => split_once ";" url
  end.

Definition model_urlparse (url : string) : result UrlParts :=
  let url := lstrip_c0 url in
  let url := remove_chars (λ c, bool_decide (c = "009"%char) || bool_decide (c = "010"%char)
                                || bool_decide (c = "013"%char)) url in
  let '(scheme, url) := split_scheme url in
  let '(netloc, url) :=
    if Py.startswith "//" url
    then let rest := Py.drop 2 url in
         (Py.take (netloc_len rest) rest, Py.drop (netloc_len rest) rest)
    else ("", url) in
  if negb (Bool.eqb (Py.contains "[" netloc) (Py.contains "]" netloc))
  then Raise "ValueError: Invalid IPv6 URL"
  else
    let '(url, fragment) := split_once "#" url in
    let '(url, query) := split_once "?" url in
    let '(url, params) :=
      if bool_decide (scheme ∈ uses_params) && Py.contains ";" url
      then splitparams url else (url, "") in
    Ok (mkUrlParts scheme netloc url params query fragment).

Definition hex_val (c : ascii) : option N :=
  let n := N_of_ascii c in
  if Py.is_digit c then Some (n - 48)%N
  else if (65 <=? n)%N && (n <=? 70)%N then Some (n - 55)%N
  else if (97 <=? n)%N && (n <=? 102)%N then Some (n - 87)%N
  else None.

Fixpoint model_unquote (s : string) : string :=
  match s with
  | String "%" (String a (String b rest as s2) as s1) =>
      match hex_val a, hex_val b with
      | Some x, Some y => String (ascii_of_N (16 * x + y)) (model_unquote rest)
      | _, _ => String "%" (model_unquote s1)
      end
  | String c s' => String c (model_unquote s')
  | EmptyString => EmptyString
  end.

#[export] Instance urllib_model : Urllib := {|
  urlparse := model_urlparse;
  unquote := model_unquote;
|}.

End UrllibModel.

(** ** tools/polish_links.py *)

Module Polish.

Definition SKIP_PREFIXES : list string :=
  ["http://"; "https://"; "mailto:"; "tel:"; "#"; "javascript:"].

Inductive Status := BROKEN | FIXED.

Record LinkIssue := mkLinkIssue {
  file : string;
  attr : string;
  original : string;
  resolved_from : string;
  status : Status;
  suggestion : string;
}.

(** *** ATTR_RE *)

(** One match of [ATTR_RE]: the two named groups and the span of
    [val] in the text. *)
Record Match := mkMatch {
  m_attr : string;
  m_val : string;
  m_start : nat;
  m_end : nat;
}.

Definition is_quote (c : ascii) : bool :=
  bool_decide (c = "034"%char) || bool_decide (c = "039"%char).

(** The longest prefix of characters satisfying [P] *)
Fixpoint span_len (P : ascii → bool) (s : string) : nat :=
  match s with
  | String c s' => if P c then S (span_len P s') else 0%nat
  | EmptyString => 0%nat
  end.

(** [\bhref\b|\bsrc\b] at the head of [s], ignoring case; [prev] is the
    character in front. *)
Definition match_attr_name (prev : option ascii) (s : string) : option nat :=
  let boundary_before := match prev with Some c => negb (Py.is_word c) | None => true end in
  let boundary_after n :=
    match Py.drop n s with String c _ => negb (Py.is_word c) | EmptyString => true end in
  if negb boundary_before then None
  else if bool_decide (Py.lower (Py.take 4 s) = "href") && boundary_after 4%nat then Some 4%nat
  else if bool_decide (Py.lower (Py.take 3 s) = "src") && boundary_after 3%nat then Some 3%nat
  else None.

(** [ATTR_RE] at the head of [s]: the attribute name, the value, the
    offset of the value, and the length of the whole match. *)
Definition match_at (prev : option ascii) (s : string) : option (string * string * nat * nat) :=
  match match_attr_name prev s with
  | None => None
  | Some n =>
      let s1 := Py.drop n s in
      let w1 := span_len Py.is_space s1 in
      match Py.drop w1 s1 with
      | String "=" s2 =>
          let w2 := span_len Py.is_space s2 in
          match Py.drop w2 s2 with
          | String q s3 =>
              if is_quote q then
                let k := span_len (λ c, negb (is_quote c)) s3 in
                match k, Py.drop k s3 with
                | S _, String _ _ =>
                    let off := (n + w1 + 1 + w2 + 1)%nat in
                    Some (Py.take n s, Py.take k s3, off, (off + k + 1)%nat)
                | _, _ => None
                end
              else None
          | EmptyString => None
          end
      | _ => None
      end
  end.

(** [ATTR_RE.finditer]: leftmost matches that do not overlap.  [pos]
    is the offset of [s] in the text, [skip] what is left of the
    match just found. *)
Fixpoint finditer_from (pos : nat) (prev : option ascii) (skip : nat) (s : string) : list Match :=
  match s with
  | EmptyString => []
  | String c s' =>
      match skip with
      | S k => finditer_from (S pos) (Some c) k s'
      | O =>
          match match_at prev s with
          | Some (a, v, off, len) =>
              mkMatch a v (pos + off) (pos + off + String.length v)
                :: finditer_from (S pos) (Some c) (len - 1) s'
          | None => finditer_from (S pos) (Some c) 0 s'
          end
      end
  end.

Definition finditer (text : string) : list Match := finditer_from 0 None 0 text.

(** *** Helpers *)

Definition is_external (v : string) : bool :=
  let v := Py.strip v in
  existsb (λ p, Py.startswith p (Py.lower v)) SKIP_PREFIXES.

(** [re.match(r"^[A-Za-z]:[\\/]", val)] *)
Definition is_disk_path (val : string) : bool :=
  match val with
  | String c (String ":" (String d _)) =>
      Py.is_alpha c && (bool_decide (d = "\"%char) || bool_decide (d = "/"%char))
  | _ => false
  end.

Definition is_data_uri (val : string) : bool :=
  Py.startswith "data:" (Py.lower val).

Section with_urllib.
Context `{Urllib}.

Definition strip_fragment_query (v : string) : result string :=
  try! parsed := urlparse v in
  Ok (unquote (u_path parsed)).

Definition preserve_suffix (original new_path_only : string) : result string :=
  try! parsed := urlparse original in
  let suffix := "" in
  let suffix := if bool_decide (u_query parsed = "") then suffix
                else suffix +:+ "?" +:+ u_query parsed in
  let suffix := if bool_decide (u_fragment parsed = "") then suffix
                else suffix +:+ "#" +:+ u_fragment parsed in
  Ok (new_path_only +:+ suffix).

Definition resolve_target (html_file : list string) (link_val : string) : result (list string) :=
  try! raw := strip_fragment_query link_val in
  Ok (Path.resolve (Path.joinpath (Path.parent html_file) raw)).

End with_urllib.

(** The index: lower-cased file name to the paths bearing it, in the
    order [rglob] yields them. *)
Fixpoint build_filename_index (fs : FS.t) (listing : list (list string))
    (idx : gmap string (list (list string))) : gmap string (list (list string)) :=
  match listing with
  | [] => idx
  | p :: rest =>
      if FS.is_file fs p
      then let k := Py.lower (Path.name p) in
           build_filename_index fs rest (<[k := default [] (idx !! k) ++ [Path.resolve p]]> idx)
      else build_filename_index fs rest idx
  end.

Definition to_rel (from_dir target : list string) : string :=
  Py.replace_char "\" "/" (Path.relpath target from_dir).

(** [score]: on POSIX [os.path.relpath] does not raise for these
    paths, so the [except] branch is not taken. *)
Definition score (cur_dir p : list string) : Z * Z * string :=
  let same_dir := if bool_decide (Path.resolve (Path.parent p) = cur_dir) then 1 else 0 in
  let relp := Py.replace_char "\" "/" (Path.relpath p cur_dir) in
  let depth := Z.of_nat (Py.count_char "/" relp) + 1 in
  (same_dir, - depth, Py.lower (Path.to_str p)).

(** [None] is the [IndexError] of [sorted(...)[0]] on no candidates. *)
Definition choose_best_candidate (current_html : list string)
    (candidates : list (list string)) : option (list string) :=
  let cur_dir := Path.resolve (Path.parent current_html) in
  head (sorted_reverse (score cur_dir) triple_le candidates).

(** *** The scan of one document *)

(** The lists [broken] and [fixed] of the run, and the [replacements]
    of the document at hand. *)
Record Acc := mkAcc {
  broken : list LinkIssue;
  fixed : list LinkIssue;
  replacements : list (nat * nat * string);
}.

Section with_urllib.
Context `{Urllib}.

(** The body of [for m in ATTR_RE.finditer(text)] *)
Definition scan_match (repo : list string) (filename_index : gmap string (list (list string)))
    (fs : FS.t) (f : list string) (acc : Acc) (m : Match) : result Acc :=
  let attr := m_attr m in
  let val := m_val m in
  if bool_decide (val = "") || is_external val then Ok acc
  else if is_disk_path val then Ok acc
  else if is_data_uri val then Ok acc
  else
    try! raw_path := strip_fragment_query val in
    if bool_decide (raw_path = "") then Ok acc
    else
      try! target := resolve_target f val in
      if FS.exists_ fs target then Ok acc
      else
        let filename := Py.lower (Path.name (Path.parse_parts raw_path)) in
        let candidates := default [] (filename_index !! filename) in
        try! rel_file := Path.relative_to_checked repo f in
        try! rel_dir := Path.relative_to_checked repo (Path.parent f) in
        let issue st sugg :=
          mkLinkIssue (Path.as_posix rel_file) attr val (Path.as_posix rel_dir) st sugg in
        match candidates with
        | [] =>
            Ok (mkAcc (broken acc ++ [issue BROKEN ""]) (fixed acc) (replacements acc))
        | _ :: _ =>
            match choose_best_candidate f candidates with
            | None => Raise "IndexError"
            | Some best =>
                let new_rel_path := to_rel (Path.resolve (Path.parent f)) (Path.resolve best) in
                try! new_val := preserve_suffix val new_rel_path in
                Ok (mkAcc (broken acc ++ [issue BROKEN new_val])
                          (fixed acc ++ [issue FIXED new_val])
                          (replacements acc ++ [(m_start m, m_end m, new_val)]))
            end
        end.

Fixpoint scan_matches (repo : list string) (filename_index : gmap string (list (list string)))
    (fs : FS.t) (f : list string) (acc : Acc) (ms : list Match) : result Acc :=
  match ms with
  | [] => Ok acc
  | m :: rest =>
      try! acc' := scan_match repo filename_index fs f acc m in
      scan_matches repo filename_index fs f acc' rest
  end.

End with_urllib.

(** *** Writing the fixes *)

Definition backup_path (f : list string) : list string :=
  Path.with_suffix f (Path.suffix f +:+ ".bak_polish").

(** The replacements from the last span to the first *)
Definition splice (text : string) (replacements : list (nat * nat * string)) : string :=
  foldl (λ new_text r,
           let '(start, end_, new_val) := r in
           Py.take start new_text +:+ new_val +:+ Py.drop end_ new_text)
        text
        (sorted_reverse (λ r : nat * nat * string, r.1.1) Nat.leb replacements).

(** The [if replacements and args.apply:] block *)
Definition write_fixes (fs : FS.t) (f : list string) (text : string)
    (replacements : list (nat * nat * string)) : FS.t :=
  let bak := backup_path f in
  let fs1 := if negb (FS.exists_ fs bak) then FS.write_text fs bak text else fs in
  FS.write_text fs1 f (splice text replacements).

Section with_urllib.
Context `{Urllib}.

(** One turn of [for f in html_files]; the tree it leaves, and the
    lists so far or the exception that ended the run. *)
Definition process_document (repo : list string) (apply : bool)
    (filename_index : gmap string (list (list string)))
    (fs : FS.t) (f : list string) (issues : list LinkIssue * list LinkIssue)
    : FS.t * result (list LinkIssue * list LinkIssue) :=
  match FS.files fs !! f with
  | None => (fs, Raise "OSError: read_text")
  | Some text =>
      match scan_matches repo filename_index fs f (mkAcc issues.1 issues.2 []) (finditer text) with
      | Raise exc => (fs, Raise exc)
      | Ok acc =>
          let fs' :=
            if negb (bool_decide (replacements acc = [])) && apply
            then write_fixes fs f text (replacements acc)
            else fs in
          (fs', Ok (broken acc, fixed acc))
      end
  end.

Fixpoint process_documents (repo : list string) (apply : bool)
    (filename_index : gmap string (list (list string)))
    (fs : FS.t) (html_files : list (list string)) (issues : list LinkIssue * list LinkIssue)
    : FS.t * result (list LinkIssue * list LinkIssue) :=
  match html_files with
  | [] => (fs, Ok issues)
  | f :: rest =>
      match process_document repo apply filename_index fs f issues with
      | (fs', Ok issues') => process_documents repo apply filename_index fs' rest issues'
      | (fs', Raise exc) => (fs', Raise exc)
      end
  end.

(** [bp.rglob("*.html")] keeps the names that end in [.html]. *)
Definition html_files_of (fs : FS.t) (listing : list (list string)) : list (list string) :=
  sorted (λ p : list string, p) Path.path_le
    (filter (λ p, Py.endswith ".html" (Path.name p) = true ∧ FS.is_file fs p = true) listing).

(** [main], up to the two report files: [listing] is what
    [bp.rglob("*")] yields.  The outcome is the tree as the run leaves
    it with the lists [broken] and [fixed]. *)
Definition main (repo : list string) (build_plan : string) (apply : bool) (stamp : string)
    (listing : list (list string)) (fs : FS.t)
    : FS.t * result (list LinkIssue * list LinkIssue) :=
  let bp := Path.resolve (Path.joinpath repo build_plan) in
  if negb (FS.exists_ fs bp) then (fs, Raise "Build plan folder not found")
  else
    match FS.mkdir_p fs (repo ++ ["reports"; "polish"; stamp]) with
    | Raise exc => (fs, Raise exc)
    | Ok fs1 =>
        let filename_index := build_filename_index fs1 listing ∅ in
        process_documents repo apply filename_index fs1 (html_files_of fs1 listing) ([], [])
    end.

End with_urllib.

End Polish.

(** ** The specification's wording, where it departs from the code *)

Module Spec.

(** The candidate score as worded: same-directory flag, negative depth
    of the relative route, and "the candidate's absolute path string"
    as the final tie-break. *)
Definition score (cur_dir p : list string) : Z * Z * string :=
  let same_dir := if bool_decide (Path.resolve (Path.parent p) = cur_dir) then 1 else 0 in
  let depth := Z.of_nat (Py.count_char "/" (Path.relpath p cur_dir)) + 1 in
  (same_dir, - depth, Path.to_str p).

(** "Absolute URL schemes": a scheme name, then [://]. *)
Definition is_absolute_url (v : string) : bool :=
  match Py.find_char ":" v, v with
  | Some (S i), String c0 _ =>
      Py.is_alpha c0
      && UrllibModel.all_chars UrllibModel.scheme_char (Py.take (S i) v)
      && Py.startswith "//" (Py.drop (S (S i)) v)
  | _, _ => false
  end.

End Spec.

(** ** Predicates of the statements *)

(** A broken and a fixed issue that report the same link *)
Definition twins (j i : Polish.LinkIssue) : Prop :=
  Polish.status j = Polish.BROKEN ∧ Polish.status i = Polish.FIXED
  ∧ Polish.file j = Polish.file i
  ∧ Polish.attr j = Polish.attr i
  ∧ Polish.original j = Polish.original i
  ∧ Polish.resolved_from j = Polish.resolved_from i
  ∧ Polish.suggestion j = Polish.suggestion i.

Definition paired (broken fixed : list Polish.LinkIssue) : Prop :=
  (∀ i, i ∈ fixed → ∃ j, j ∈ broken ∧ twins j i)
  ∧ (length fixed ≤ length broken)%nat.

(** A value that one of the three guards of the scan loop skips *)
Definition skipped (val : string) : Prop :=
  Polish.is_external val = true ∨ Polish.is_disk_path val = true ∨ Polish.is_data_uri val = true.

(** ** Example trees *)

Module Examples.

Definition page : string :=
  "<a href='overview.html'>o</a> <a href='ftp://files.example.org/intro.html'>i</a> "
  +:+ "<a href='https://example.org/intro.html'>w</a> <img src='../img/gone.png?v=2#top'>".

Definition plan_tree : FS.t :=
  FS.mk (list_to_map
           [(["r"; "Build_plan"; "m3"; "page.html"], page);
            (["r"; "Build_plan"; "m7"; "overview.html"], "overview");
            (["r"; "Build_plan"; "m7"; "intro.html"], "intro");
            (["r"; "Build_plan"; "m3"; "gone.png"], "png")])
        (list_to_set [["r"]; ["r"; "Build_plan"]; ["r"; "Build_plan"; "m3"];
                      ["r"; "Build_plan"; "m7"]]).

Definition plan_listing : list (list string) :=
  [["r"; "Build_plan"; "m3"]; ["r"; "Build_plan"; "m3"; "page.html"];
   ["r"; "Build_plan"; "m3"; "gone.png"]; ["r"; "Build_plan"; "m7"];
   ["r"; "Build_plan"; "m7"; "overview.html"]; ["r"; "Build_plan"; "m7"; "intro.html"]].

(** A page with two dead links; the target of the second is only
    listed in the second run. *)
Definition two_links : string :=
  "<a href='overview.html'>o</a> <a href='notes.html'>n</a>".

Definition two_links_tree : FS.t :=
  FS.mk (list_to_map
           [(["r"; "Build_plan"; "m3"; "page.html"], two_links);
            (["r"; "Build_plan"; "m7"; "overview.html"], "overview");
            (["r"; "Build_plan"; "m7"; "notes.html"], "notes")])
        (list_to_set [["r"]; ["r"; "Build_plan"]; ["r"; "Build_plan"; "m3"];
                      ["r"; "Build_plan"; "m7"]]).

Definition first_listing : list (list string) :=
  [["r"; "Build_plan"; "m3"; "page.html"]; ["r"; "Build_plan"; "m7"; "overview.html"]].

Definition second_listing : list (list string) :=
  [["r"; "Build_plan"; "m3"; "page.html"]; ["r"; "Build_plan"; "m3"; "page.html.bak_polish"];
   ["r"; "Build_plan"; "m7"; "overview.html"]; ["r"; "Build_plan"; "m7"; "notes.html"]].

(** A tree where [docs/a.md] and [docs/a__2.md] are taken. *)
Definition crowded_tree : FS.t :=
  FS.mk (list_to_map
           [(["repo"; "inbox"; "a.md"], "new");
            (["repo"; "docs"; "a.md"], "first");
            (["repo"; "docs"; "a__2.md"], "second")])
        (list_to_set [["repo"]; ["repo"; "inbox"]; ["repo"; "docs"]]).

(** Three files with one digest, a directory, and a file under [.git] *)
Definition twin_entries : list Reorg.Entry :=
  [Reorg.mkEntry ["repo"; "a"; "x.txt"] false (Some (3, 10)) (Ok "h1");
   Reorg.mkEntry ["repo"; "b"] true (Some (0, 11)) (Raise "IsADirectoryError");
   Reorg.mkEntry ["repo"; "b"; "y.txt"] false (Some (3, 12)) (Ok "h1");
   Reorg.mkEntry ["repo"; "b"; "z.txt"] false (Some (3, 12)) (Ok "h1");
   Reorg.mkEntry ["repo"; ".git"; "config"] false None (Ok "h2")].

Definition twin_scan : list Reorg.FileRecord * gmap string (list (list string * Z)) :=
  match Reorg.scan ["repo"] true twin_entries with
  | Ok st => st
  | Raise _ => ([], ∅)
  end.

End Examples.

(** * Properties *)

(** ** Strings *)

Lemma append_cons c a b : String c a +:+ b = String c (a +:+ b).
Proof. reflexivity. Qed.

Lemma append_nil_l b : "" +:+ b = b.
Proof. reflexivity. Qed.

Lemma append_nil_r a : a +:+ "" = a.
Proof. induction a as [|c a IH]; [done|]. by rewrite append_cons, IH. Qed.

Lemma append_assoc a b c : (a +:+ b) +:+ c = a +:+ b +:+ c.
Proof. induction a as [|x a IH]; [done|]. by rewrite !append_cons, IH. Qed.

Lemma startswith_spec p s : Py.startswith p s = true ↔ ∃ t, s = p +:+ t.
Proof.
  revert s. induction p as [|a p IH]; intros s; simpl.
  - split; [intros _; by exists s | done].
  - destruct s as [|b s].
    + split; [done | intros [t Ht]; by rewrite append_cons in Ht].
    + rewrite andb_true_iff, bool_decide_eq_true, IH. split.
      * intros [-> [t ->]]. by exists t.
      * intros [t Ht]. rewrite append_cons in Ht. injection Ht as -> ->. eauto.
Qed.

Lemma contains_spec k s : Py.contains k s = true ↔ ∃ a b, s = a +:+ k +:+ b.
Proof.
  induction s as [|c s IH].
  - simpl. rewrite orb_false_r, startswith_spec. split.
    + intros [t Ht]. by exists "", t.
    + intros [[|x a] [b Hb]]; [by exists b | by rewrite append_cons in Hb].
  - cbn [Py.contains]. rewrite orb_true_iff, IH, startswith_spec. split.
    + intros [[t Ht] | (a & b & ->)]; [by exists "", t | by exists (String c a), b].
    + intros [[|x a] [b Hb]]; [left; by exists b |].
      rewrite append_cons in Hb. injection Hb as -> ->. right. eauto.
Qed.

Lemma any_in_spec ks s :
  Reorg.any_in ks s = true ↔ ∃ k, k ∈ ks ∧ ∃ a b, s = a +:+ k +:+ b.
Proof.
  unfold Reorg.any_in. rewrite existsb_exists. setoid_rewrite <- contains_spec.
  by setoid_rewrite list_elem_of_In.
Qed.

(** ** The not-needed filter *)

(** C5: the not-needed filter answers with a reason exactly when the
    lower-cased extension is a packaging, backup or log type, or the
    lower-cased path contains one of the six tokens and does not contain
    [build_plan] anywhere; and the planner never archives as not needed a
    path that lies under [archive/]. *)
Theorem not_needed_filter_exact (path : list string) (rel : string) :
  (is_Some (Reorg.classify_not_needed path rel) ↔
     Py.lower (Path.suffix path) ∈ Reorg.NOT_NEEDED_EXTENSIONS
     ∨ ((∃ k, k ∈ ["old"; "backup"; "export"; "exports"; "tmp"; "temp"]
              ∧ ∃ a b, Py.lower rel = a +:+ k +:+ b)
        ∧ ¬ ∃ a b, Py.lower rel = a +:+ "build_plan" +:+ b))
  ∧ (∀ root hashing dup_paths rec,
       Reorg.rel_path rec = rel →
       (∃ t, Py.lower rel = "archive/" +:+ t) →
       Reorg.action (Reorg.plan_record root hashing dup_paths rec).1
         ≠ Reorg.MOVE_TO_ARCHIVE_NOT_NEEDED).
Proof.
  split.
  - unfold Reorg.classify_not_needed.
    rewrite <- any_in_spec, <- contains_spec.
    case_bool_decide as Hext.
    { split; [by left | eauto]. }
    destruct (Reorg.any_in _ _) eqn:Htok; simpl.
    + destruct (Py.contains "build_plan" _) eqn:Hbp; simpl.
      * split; [by intros [? ?] | intros [? | [_ Hn]]; [done | by destruct Hn]].
      * split; [intros _; right; split; [done | by intros ?] | eauto].
    + split; [by intros [? ?] | intros [? | [? _]]; done].
  - intros root hashing dup_paths rec <- Harch%startswith_spec.
    unfold Reorg.plan_record. rewrite Harch, andb_false_r.
    destruct (hashing && _); [done |].
    destruct (Reorg.choose_destination _ _ _) as [dest why].
    case_bool_decide; [done |].
    by destruct (Py.startswith "archive/_unknown_review/" dest).
Qed.

Lemma not_needed_filter_exact_witness :
  Reorg.action
    (Reorg.plan_record ["repo"] false ∅
       (Reorg.mkFileRecord "archive/old_export.zip" ["repo"; "archive"; "old_export.zip"]
          10 100 None Reorg.KEEP_IN_PLACE "" None)).1
  ≠ Reorg.MOVE_TO_ARCHIVE_NOT_NEEDED.
Proof.
  apply (proj2 (not_needed_filter_exact ["repo"; "archive"; "old_export.zip"]
                  "archive/old_export.zip") ["repo"] false ∅
           (Reorg.mkFileRecord "archive/old_export.zip" ["repo"; "archive"; "old_export.zip"]
              10 100 None Reorg.KEEP_IN_PLACE "" None) eq_refl).
  exists "old_export.zip". vm_compute. reflexivity.
Defined.

(** ** The destination classifier *)

(** Rule 1 comes first: a name in the set, or whose lower-cased form is
    in the set, goes to [Build_plan/] whatever its path. *)
Lemma canonical_entrypoint_first root rel name :
  name ∈ Reorg.CANONICAL_ROOT_FILES ∨ Py.lower name ∈ Reorg.CANONICAL_ROOT_FILES →
  Reorg.choose_destination root rel name = ("Build_plan/" +:+ name, "Canonical plan entrypoint").
Proof.
  intros Hin. unfold Reorg.choose_destination.
  destruct Hin as [Hin | Hin].
  - by rewrite (bool_decide_eq_true_2 _ Hin).
  - by rewrite (bool_decide_eq_true_2 _ Hin), orb_true_r.
Qed.

Lemma index_html_outside_plan_directory :
  Reorg.choose_destination ["repo"] "drafts/m3/index.html" "index.html"
  = ("Build_plan/index.html", "Canonical plan entrypoint").
Proof. apply canonical_entrypoint_first. left. by vm_compute. Qed.

(** C6: the set of entrypoint names holds the second name in mixed case
    only, so its lower-cased spelling is not matched by rule 1: under
    [Build_plan/] such a file stays where it is, elsewhere rule 3 takes
    it. *)
Theorem lowercase_v2_entrypoint_misses_rule_1 :
  Py.lower "master_build_plan_consolidated_v2.html"
    = Py.lower "MASTER_BUILD_PLAN_CONSOLIDATED_V2.html"
  ∧ "MASTER_BUILD_PLAN_CONSOLIDATED_V2.html" ∈ Reorg.CANONICAL_ROOT_FILES
  ∧ Reorg.choose_destination ["repo"]
      "Build_plan/drafts/master_build_plan_consolidated_v2.html"
      "master_build_plan_consolidated_v2.html"
    = ("Build_plan/drafts/master_build_plan_consolidated_v2.html", "Already in Build_plan")
  ∧ Reorg.choose_destination ["repo"]
      "drafts/master_build_plan_consolidated_v2.html"
      "master_build_plan_consolidated_v2.html"
    = ("Build_plan/master_build_plan_consolidated_v2.html",
       "HTML appears to be build-plan related").
Proof. repeat split; by vm_compute. Qed.

(** ** Failures during the scan *)

(** Whatever reason the scan left on a record, the planner replaces it. *)
Lemma plan_record_forgets_reason root hashing dup_paths rec why :
  (Reorg.plan_record root hashing dup_paths (Reorg.set_reason rec why)).1
  = (Reorg.plan_record root hashing dup_paths rec).1.
Proof.
  unfold Reorg.plan_record. destruct rec as [rel p sz mt sha a r d].
  cbn [Reorg.set_reason Reorg.abs_path Reorg.rel_path].
  destruct (hashing && _); [done |].
  destruct (Reorg.truthy _ && _); [done |].
  destruct (Reorg.choose_destination root rel (Path.name p)) as [dest why'].
  destruct (bool_decide _); [done |].
  by destruct (Py.startswith "archive/_unknown_review/" dest).
Qed.

(** C1: a file whose hashing raises gets the reason [Hash failed: ...]
    from the scan, and the planning loop then overwrites it, so the
    final record does not carry it; and a file whose [stat] raises ends
    the run. *)
Theorem scan_failure_not_on_final_record :
  let fs := FS.mk {[ ["repo"; "data"; "report.csv"] := "bytes" ]}
                  {[ ["repo"]; ["repo"; "data"] ]} in
  let unreadable :=
    Reorg.mkEntry ["repo"; "data"; "report.csv"] false (Some (120, 1700000000))
      (Raise "PermissionError") in
  let no_stat :=
    Reorg.mkEntry ["repo"; "data"; "report.csv"] false None (Ok "5e88") in
  Reorg.scan ["repo"] true [unreadable]
    = Ok ([Reorg.mkFileRecord "data/report.csv" ["repo"; "data"; "report.csv"] 120 1700000000
             None Reorg.KEEP_IN_PLACE "Hash failed: PermissionError" None], ∅)
  ∧ (Reorg.main ["repo"] false true "20260101_000000" [unreadable] fs).2
    = Ok ([Reorg.mkFileRecord "data/report.csv" ["repo"; "data"; "report.csv"] 120 1700000000
             None Reorg.MOVE_TO_DEST "Misc keep-extension file" (Some "docs/misc/report.csv")],
          [(["repo"; "data"; "report.csv"], ["repo"; "docs"; "misc"; "report.csv"])])
  ∧ (Reorg.main ["repo"] false true "20260101_000000" [no_stat] fs).2
    = Raise "OSError: stat".
Proof. repeat split; by vm_compute. Qed.

(** ** Planning again after an applied run *)

(** C2: a file under [snapshots/] is moved to its classified destination
    [golden/]; the next run, on the tree the first one left, finds the
    token [old] in [golden/...] and plans to move the same file on to
    [archive/_not_needed/]. *)
Theorem relocated_golden_file_is_planned_again :
  let fs := FS.mk {[ ["repo"; "snapshots"; "x.dat"] := "bytes" ]}
                  {[ ["repo"]; ["repo"; "snapshots"] ]} in
  let entry p := Reorg.mkEntry p false (Some (5, 1700000000)) (Ok "5e88") in
  let first := Reorg.main ["repo"] true false "20260101_000000"
                 [entry ["repo"; "snapshots"; "x.dat"]] fs in
  let second := Reorg.main ["repo"] true false "20260102_000000"
                  [entry ["repo"; "golden"; "x.dat"]] first.1 in
  Reorg.choose_destination ["repo"] "snapshots/x.dat" "x.dat" = ("golden/x.dat", "Golden output")
  ∧ first.2
    = Ok ([Reorg.mkFileRecord "snapshots/x.dat" ["repo"; "snapshots"; "x.dat"] 5 1700000000
             None Reorg.MOVE_TO_DEST "Golden output" (Some "golden/x.dat")],
          [(["repo"; "snapshots"; "x.dat"], ["repo"; "golden"; "x.dat"])])
  ∧ FS.files first.1 !! ["repo"; "golden"; "x.dat"] = Some "bytes"
  ∧ second.2
    = Ok ([Reorg.mkFileRecord "golden/x.dat" ["repo"; "golden"; "x.dat"] 5 1700000000
             None Reorg.MOVE_TO_ARCHIVE_NOT_NEEDED "Looks like export/backup/temp"
             (Some "archive/_not_needed/x.dat")],
          [(["repo"; "golden"; "x.dat"], ["repo"; "archive"; "_not_needed"; "x.dat"])])
  ∧ FS.files second.1 !! ["repo"; "archive"; "_not_needed"; "x.dat"] = Some "bytes".
Proof. repeat split; by vm_compute. Qed.

(** ** The link scan *)

Section link_scan.
Context `{Urllib}.

(** What one match can do to the lists: nothing, one broken issue
    without suggestion, or a broken and a fixed issue with the same
    fields and one replacement; the last two only for a value that none
    of the three guards skips. *)
Lemma scan_match_inv repo idx fs f acc m acc' :
  Polish.scan_match repo idx fs f acc m = Ok acc' →
  acc' = acc
  ∨ (Polish.is_external (Polish.m_val m) = false
     ∧ Polish.is_disk_path (Polish.m_val m) = false
     ∧ Polish.is_data_uri (Polish.m_val m) = false
     ∧ ∃ fl dir,
         acc' = Polish.mkAcc
                  (Polish.broken acc
                   ++ [Polish.mkLinkIssue fl (Polish.m_attr m) (Polish.m_val m) dir Polish.BROKEN ""])
                  (Polish.fixed acc) (Polish.replacements acc)
         ∨ ∃ new_val,
             acc' = Polish.mkAcc
                      (Polish.broken acc
                       ++ [Polish.mkLinkIssue fl (Polish.m_attr m) (Polish.m_val m) dir
                             Polish.BROKEN new_val])
                      (Polish.fixed acc
                       ++ [Polish.mkLinkIssue fl (Polish.m_attr m) (Polish.m_val m) dir
                             Polish.FIXED new_val])
                      (Polish.replacements acc
                       ++ [(Polish.m_start m, Polish.m_end m, new_val)])).
Proof.
  unfold Polish.scan_match.
  destruct (bool_decide (Polish.m_val m = "")); simpl; [naive_solver |].
  destruct (Polish.is_external _); simpl; [naive_solver |].
  destruct (Polish.is_disk_path _); [naive_solver |].
  destruct (Polish.is_data_uri _); [naive_solver |].
  destruct (Polish.strip_fragment_query _) as [raw|]; simpl; [| done].
  case_bool_decide; [naive_solver |].
  destruct (Polish.resolve_target _ _) as [target|]; simpl; [| done].
  destruct (FS.exists_ fs target); [naive_solver |].
  destruct (Path.relative_to_checked repo f) as [fl|]; simpl; [| done].
  destruct (Path.relative_to_checked repo (Path.parent f)) as [dir|]; simpl; [| done].
  destruct (default [] _) as [|c cs].
  - intros [= <-]. right. repeat split. exists (Path.as_posix fl), (Path.as_posix dir). by left.
  - destruct (Polish.choose_best_candidate _ _) as [best|]; [| done].
    destruct (Polish.preserve_suffix _ _) as [new_val|]; simpl; [| done].
    intros [= <-]. right. repeat split.
    exists (Path.as_posix fl), (Path.as_posix dir). right. by exists new_val.
Qed.

End link_scan.

(** ** Fixed issues and their broken twins *)

Section paired_reports.
Context `{Urllib}.

Lemma paired_grow_broken broken fixed j :
  paired broken fixed → paired (broken ++ [j]) fixed.
Proof.
  intros [Hin Hlen]. split.
  - intros i Hi. destruct (Hin i Hi) as (j' & ? & ?). exists j'. set_solver.
  - rewrite length_app. simpl. lia.
Qed.

Lemma paired_grow_both broken fixed j i :
  twins j i → paired broken fixed → paired (broken ++ [j]) (fixed ++ [i]).
Proof.
  intros Hji [Hin Hlen]. split.
  - intros i' [Hi | ->%list_elem_of_singleton]%elem_of_app.
    + destruct (Hin i' Hi) as (j' & ? & ?). exists j'. set_solver.
    + exists j. set_solver.
  - rewrite !length_app. simpl. lia.
Qed.

Lemma scan_match_paired repo idx fs f acc m acc' :
  Polish.scan_match repo idx fs f acc m = Ok acc' →
  paired (Polish.broken acc) (Polish.fixed acc) →
  paired (Polish.broken acc') (Polish.fixed acc').
Proof.
  intros [-> | (_ & _ & _ & fl & dir & [-> | [new_val ->]])]%scan_match_inv Hp; simpl.
  - done.
  - by apply paired_grow_broken.
  - apply paired_grow_both; [| done]. by repeat split.
Qed.

Lemma scan_matches_paired repo idx fs f ms acc acc' :
  Polish.scan_matches repo idx fs f acc ms = Ok acc' →
  paired (Polish.broken acc) (Polish.fixed acc) →
  paired (Polish.broken acc') (Polish.fixed acc').
Proof.
  revert acc. induction ms as [|m ms IH]; intros acc; simpl.
  - by intros [= <-].
  - destruct (Polish.scan_match _ _ _ _ _ _) as [acc1|] eqn:Hm; simpl; [| done].
    intros Hrest Hp. eapply IH; [done |]. by eapply scan_match_paired.
Qed.

Lemma process_document_paired repo apply idx fs f issues fs' issues' :
  Polish.process_document repo apply idx fs f issues = (fs', Ok issues') →
  paired issues.1 issues.2 → paired issues'.1 issues'.2.
Proof.
  unfold Polish.process_document.
  destruct (FS.files fs !! f) as [text|]; [| done].
  destruct (Polish.scan_matches _ _ _ _ _ _) as [acc|] eqn:Hscan; [| done].
  intros [= _ <-] Hp. simpl. by eapply scan_matches_paired.
Qed.

Lemma process_documents_paired repo apply idx docs fs issues fs' issues' :
  Polish.process_documents repo apply idx fs docs issues = (fs', Ok issues') →
  paired issues.1 issues.2 → paired issues'.1 issues'.2.
Proof.
  revert fs issues. induction docs as [|f docs IH]; intros fs issues; simpl.
  - by intros [= _ <-].
  - destruct (Polish.process_document _ _ _ _ _ _) as [fs1 [issues1|]] eqn:Hdoc; [| done].
    intros Hrest Hp. eapply IH; [done |]. by eapply process_document_paired.
Qed.

(** C10: in the lists a run hands to the reports, every fixed issue has
    a broken issue with the same document, attribute, original value,
    containing directory and suggestion, and the broken list is at least
    as long as the fixed list. *)
Theorem fixed_issues_have_broken_twins repo build_plan apply stamp listing fs fs' broken fixed :
  Polish.main repo build_plan apply stamp listing fs = (fs', Ok (broken, fixed)) →
  (∀ i, i ∈ fixed →
     ∃ j, j ∈ broken
          ∧ Polish.status j = Polish.BROKEN ∧ Polish.status i = Polish.FIXED
          ∧ Polish.file j = Polish.file i
          ∧ Polish.attr j = Polish.attr i
          ∧ Polish.original j = Polish.original i
          ∧ Polish.resolved_from j = Polish.resolved_from i
          ∧ Polish.suggestion j = Polish.suggestion i)
  ∧ (length fixed ≤ length broken)%nat.
Proof.
  unfold Polish.main.
  destruct (negb _); [done |].
  destruct (FS.mkdir_p _ _) as [fs1|]; [| done].
  intros Hrun. apply (process_documents_paired _ _ _ _ _ _ _ _ Hrun).
  split; [set_solver | done].
Qed.

End paired_reports.

Lemma fixed_issues_have_broken_twins_witness :
  let run := Polish.main (H := UrllibModel.urllib_model) ["r"] "Build_plan" false
               "20260101_000000" Examples.plan_listing Examples.plan_tree in
  match run.2 with
  | Ok (broken, fixed) => (0 < length fixed ≤ length broken)%nat
  | Raise _ => False
  end.
Proof.
  intros run.
  assert (∃ broken fixed, run.2 = Ok (broken, fixed) ∧ (0 < length fixed)%nat)
    as (broken & fixed & Hrun & Hpos).
  { eexists _, _. split; [vm_compute; reflexivity | simpl; lia]. }
  rewrite Hrun. split; [done |].
  apply (fixed_issues_have_broken_twins (H := UrllibModel.urllib_model)
           ["r"] "Build_plan" false "20260101_000000"
           Examples.plan_listing Examples.plan_tree run.1 broken fixed).
  rewrite <- Hrun. apply surjective_pairing.
Defined.

(** ** Values the scan skips *)

Section skipped_values.
Context `{Urllib}.

Definition unskipped (issues : list Polish.LinkIssue) : Prop :=
  ∀ i, i ∈ issues → ¬ skipped (Polish.original i).

Lemma not_skipped_guards val :
  Polish.is_external val = false → Polish.is_disk_path val = false →
  Polish.is_data_uri val = false → ¬ skipped val.
Proof. intros ??? [? | [? | ?]]; congruence. Qed.

Lemma scan_match_skips repo idx fs f acc m :
  skipped (Polish.m_val m) → Polish.scan_match repo idx fs f acc m = Ok acc.
Proof.
  unfold Polish.scan_match. intros [He | [Hd | Hu]].
  - by rewrite He, orb_true_r.
  - rewrite Hd. by destruct (_ || _).
  - rewrite Hu. destruct (_ || _); [done |]. by destruct (Polish.is_disk_path _).
Qed.

Lemma scan_match_unskipped repo idx fs f acc m acc' :
  Polish.scan_match repo idx fs f acc m = Ok acc' →
  unskipped (Polish.broken acc ++ Polish.fixed acc) →
  unskipped (Polish.broken acc' ++ Polish.fixed acc').
Proof.
  intros [-> | (He & Hd & Hu & fl & dir & [-> | [new_val ->]])]%scan_match_inv Hp;
    [done | |]; simpl; intros i Hi;
    pose proof (not_skipped_guards _ He Hd Hu) as Hns;
    rewrite !elem_of_app, ?list_elem_of_singleton in Hi.
  - destruct Hi as [[Hi | ->] | Hi]; [| done |]; apply Hp; set_solver.
  - destruct Hi as [[Hi | ->] | [Hi | ->]]; [| done | | done]; apply Hp; set_solver.
Qed.

Lemma scan_matches_unskipped repo idx fs f ms acc acc' :
  Polish.scan_matches repo idx fs f acc ms = Ok acc' →
  unskipped (Polish.broken acc ++ Polish.fixed acc) →
  unskipped (Polish.broken acc' ++ Polish.fixed acc').
Proof.
  revert acc. induction ms as [|m ms IH]; intros acc; simpl.
  - by intros [= <-].
  - destruct (Polish.scan_match _ _ _ _ _ _) as [acc1|] eqn:Hm; simpl; [| done].
    intros Hrest Hp. eapply IH; [done |]. by eapply scan_match_unskipped.
Qed.

(** Every replacement of a document is the span of one of its matches,
    and of one that no guard skips. *)
Lemma scan_matches_replacements repo idx fs f ms acc acc' :
  Polish.scan_matches repo idx fs f acc ms = Ok acc' →
  ∀ r, r ∈ Polish.replacements acc' →
    r ∈ Polish.replacements acc
    ∨ ∃ m, m ∈ ms ∧ ¬ skipped (Polish.m_val m)
           ∧ r.1 = (Polish.m_start m, Polish.m_end m).
Proof.
  revert acc. induction ms as [|m ms IH]; intros acc; simpl.
  - intros [= <-]. by left.
  - destruct (Polish.scan_match _ _ _ _ _ _) as [acc1|] eqn:Hm; simpl; [| done].
    intros Hrest r Hr. destruct (IH _ Hrest r Hr) as [Hr1 | (m' & ? & ? & ?)].
    + apply scan_match_inv in Hm
        as [-> | (He & Hd & Hu & fl & dir & [-> | [new_val ->]])]; simpl in Hr1.
      * by left.
      * by left.
      * apply elem_of_app in Hr1 as [? | ->%list_elem_of_singleton]; [by left |].
        right. exists m. split; [set_solver |]. split; [| done].
        by apply not_skipped_guards.
    + right. exists m'. set_solver.
Qed.

Lemma process_documents_unskipped repo apply idx docs fs issues fs' issues' :
  Polish.process_documents repo apply idx fs docs issues = (fs', Ok issues') →
  unskipped (issues.1 ++ issues.2) → unskipped (issues'.1 ++ issues'.2).
Proof.
  revert fs issues. induction docs as [|f docs IH]; intros fs issues; simpl.
  - by intros [= _ <-].
  - destruct (Polish.process_document _ _ _ _ _ _) as [fs1 [issues1|]] eqn:Hdoc; [| done].
    intros Hrest Hp. eapply IH; [done |].
    unfold Polish.process_document in Hdoc.
    destruct (FS.files fs !! f) as [text|]; [| done].
    destruct (Polish.scan_matches _ _ _ _ _ _) as [acc|] eqn:Hscan; [| done].
    injection Hdoc as _ <-. simpl. by eapply scan_matches_unskipped.
Qed.

(** C9, as the code has it: a value is skipped when, stripped and
    lower-cased, it starts with [http://], [https://], [mailto:], [tel:],
    [#] or [javascript:], when it starts with a drive letter, a colon and
    a slash or backslash, or when its lower-cased form starts with
    [data:].  A match with such a value leaves the lists and the
    replacements as they are on every tree; no issue of a run has such a
    value as its original; and every replacement of a document is the
    span of a match whose value is not skipped. *)
Theorem skipped_values_leave_no_trace :
  (∀ repo idx fs f acc m,
     skipped (Polish.m_val m) → Polish.scan_match repo idx fs f acc m = Ok acc)
  ∧ (∀ repo build_plan apply stamp listing fs fs' broken fixed,
       Polish.main repo build_plan apply stamp listing fs = (fs', Ok (broken, fixed)) →
       ∀ i, i ∈ broken ++ fixed → ¬ skipped (Polish.original i))
  ∧ (∀ repo idx fs f text acc,
       Polish.scan_matches repo idx fs f (Polish.mkAcc [] [] []) (Polish.finditer text) = Ok acc →
       ∀ r, r ∈ Polish.replacements acc →
         ∃ m, m ∈ Polish.finditer text ∧ ¬ skipped (Polish.m_val m)
              ∧ r.1 = (Polish.m_start m, Polish.m_end m)).
Proof.
  split; [| split].
  - intros. by apply scan_match_skips.
  - intros repo build_plan apply stamp listing fs fs' broken fixed.
    unfold Polish.main.
    destruct (negb _); [done |].
    destruct (FS.mkdir_p _ _) as [fs1|]; [| done].
    intros Hrun. apply (process_documents_unskipped _ _ _ _ _ _ _ _ Hrun).
    intros i Hi. set_solver.
  - intros repo idx fs f text acc Hscan r Hr.
    destruct (scan_matches_replacements _ _ _ _ _ _ _ Hscan r Hr) as [Hr0 | ?]; [| done].
    simpl in Hr0. set_solver.
Qed.

End skipped_values.

Lemma skipped_values_leave_no_trace_witness :
  let m := Polish.mkMatch "href" "https://example.org/intro.html" 100 130 in
  Polish.scan_match (H := UrllibModel.urllib_model) ["r"] ∅ Examples.plan_tree
    ["r"; "Build_plan"; "m3"; "page.html"] (Polish.mkAcc [] [] []) m
  = Ok (Polish.mkAcc [] [] []).
Proof.
  intros m.
  apply (proj1 (skipped_values_leave_no_trace (H := UrllibModel.urllib_model))).
  left. vm_compute. reflexivity.
Defined.

(** C9 as worded fails: [ftp://] is an absolute URL scheme, and a link
    with it is reported broken and fixed and rewritten in the document. *)
Lemma ftp_link_is_rewritten :
  let run := Polish.main (H := UrllibModel.urllib_model) ["r"] "Build_plan" true
               "20260101_000000" Examples.plan_listing Examples.plan_tree in
  Spec.is_absolute_url "ftp://files.example.org/intro.html" = true
  ∧ ¬ skipped "ftp://files.example.org/intro.html"
  ∧ (∃ broken,
       run.2 = Ok (broken,
         [Polish.mkLinkIssue "Build_plan/m3/page.html" "href" "overview.html"
            "Build_plan/m3" Polish.FIXED "../m7/overview.html";
          Polish.mkLinkIssue "Build_plan/m3/page.html" "href"
            "ftp://files.example.org/intro.html"
            "Build_plan/m3" Polish.FIXED "../m7/intro.html";
          Polish.mkLinkIssue "Build_plan/m3/page.html" "src" "../img/gone.png?v=2#top"
            "Build_plan/m3" Polish.FIXED "gone.png?v=2#top"]))
  ∧ FS.files run.1 !! ["r"; "Build_plan"; "m3"; "page.html"]
    = Some ("<a href='../m7/overview.html'>o</a> <a href='../m7/intro.html'>i</a> "
            +:+ "<a href='https://example.org/intro.html'>w</a> <img src='gone.png?v=2#top'>").
Proof.
  intros run. split; [by vm_compute |]. split.
  { intros [? | [? | ?]]; by vm_compute in *. }
  split.
  - eexists. vm_compute. reflexivity.
  - vm_compute. reflexivity.
Qed.

(** ** Stable sorting *)

Section sorting_facts.
Context {A K : Type} (key : A → K).

Lemma insert_behind_perm stays x l : insert_behind key stays x l ≡ₚ x :: l.
Proof.
  induction l as [|y l IH]; simpl; [done |].
  destruct (stays _ _); [| done]. rewrite IH. apply Permutation_swap.
Qed.

Lemma sort_stable_snoc stays l x :
  sort_stable key stays (l ++ [x]) = insert_behind key stays x (sort_stable key stays l).
Proof. unfold sort_stable. by rewrite foldl_snoc. Qed.

Lemma sort_stable_perm stays l : sort_stable key stays l ≡ₚ l.
Proof.
  induction l as [|x l IH] using rev_ind; [done |].
  rewrite sort_stable_snoc, insert_behind_perm, IH.
  by rewrite Permutation_app_comm.
Qed.

Lemma sort_stable_nil_inv stays l : sort_stable key stays l = [] → l = [].
Proof.
  intros Hnil. apply Permutation_nil. rewrite <- Hnil at 1. apply sort_stable_perm.
Qed.

Context (le : K → K → bool).
Hypothesis le_total : ∀ a b, le a b = true ∨ le b a = true.
Hypothesis le_trans : ∀ a b c, le a b = true → le b c = true → le a c = true.

(** The head of [sorted(l, key=key, reverse=True)] is the first element
    of [l] among those with the greatest key. *)
Lemma sorted_reverse_head l :
  l ≠ [] →
  ∃ b pre post,
    l = pre ++ b :: post
    ∧ head (sorted_reverse key le l) = Some b
    ∧ (∀ x, x ∈ pre → le (key b) (key x) = false)
    ∧ (∀ x, x ∈ post → le (key x) (key b) = true).
Proof.
  induction l as [|x l IH] using rev_ind; [done |]. intros _.
  unfold sorted_reverse in *. rewrite sort_stable_snoc.
  destruct (decide (l = [])) as [-> | Hne].
  { exists x, [], []. repeat split; set_solver. }
  destruct (IH Hne) as (b & pre & post & -> & Hhd & Hpre & Hpost).
  destruct (sort_stable key _ (pre ++ b :: post)) as [|y rest]; [done |].
  injection Hhd as ->. simpl.
  destruct (le (key x) (key b)) eqn:Hxb.
  - exists b, pre, (post ++ [x]). rewrite <- app_assoc. repeat split; [done |].
    intros z [? | ->%list_elem_of_singleton]%elem_of_app; auto.
  - exists x, (pre ++ b :: post), []. repeat split; [| set_solver].
    intros z Hz. destruct (le (key x) (key z)) eqn:Hxz; [| done].
    rewrite <- Hxb. symmetry. apply (le_trans _ _ _ Hxz).
    apply elem_of_app in Hz as [Hz | [-> | Hz]%elem_of_cons].
    + destruct (le_total (key z) (key b)) as [? | Hbz]; [done |].
      by rewrite (Hpre z Hz) in Hbz.
    + destruct (le_total (key b) (key b)); done.
    + by apply Hpost.
Qed.

End sorting_facts.

Lemma str_le_total a b : Py.str_le a b = true ∨ Py.str_le b a = true.
Proof.
  unfold Py.str_le.
  destruct (total String.le a b) as [Hab | Hba]; [left | right];
    by apply Is_true_true.
Qed.

Lemma str_le_trans a b c :
  Py.str_le a b = true → Py.str_le b c = true → Py.str_le a c = true.
Proof.
  unfold Py.str_le. intros Hab%Is_true_true Hbc%Is_true_true.
  apply Is_true_true. by apply (transitivity (R := String.le) (y := b)).
Qed.

Lemma triple_le_total a b : triple_le a b = true ∨ triple_le b a = true.
Proof.
  destruct a as [[a1 a2] a3], b as [[b1 b2] b3]. unfold triple_le.
  repeat case_bool_decide; subst; try done; try apply str_le_total;
    rewrite ?Z.ltb_lt; lia.
Qed.

Lemma triple_le_trans a b c :
  triple_le a b = true → triple_le b c = true → triple_le a c = true.
Proof.
  destruct a as [[a1 a2] a3], b as [[b1 b2] b3], c as [[c1 c2] c3]. unfold triple_le.
  repeat case_bool_decide; subst; rewrite ?Z.ltb_lt; try done; try lia.
  apply str_le_trans.
Qed.

(** ** The best candidate *)

(** C7, as the code has it: among the candidates of a broken
    reference the engine picks one whose score (same-directory flag,
    negative depth of the relative route, lower-cased absolute path
    string) is greatest in the order of tuples, and the first such in index
    order; for [overview.html] referenced from [Build_plan/m3/page.html]
    it picks [Build_plan/m3/overview.html] over [Build_plan/m7/overview.html]
    and suggests [overview.html]. *)
Theorem best_candidate_has_greatest_score (current_html : list string)
    (candidates : list (list string)) :
  candidates ≠ [] →
  let cur_dir := Path.resolve (Path.parent current_html) in
  (∃ best pre post,
     candidates = pre ++ best :: post
     ∧ Polish.choose_best_candidate current_html candidates = Some best
     ∧ (∀ c, c ∈ candidates →
          triple_le (Polish.score cur_dir c) (Polish.score cur_dir best) = true)
     ∧ (∀ c, c ∈ pre →
          triple_le (Polish.score cur_dir best) (Polish.score cur_dir c) = false))
  ∧ (let page := ["repo"; "Build_plan"; "m3"; "page.html"] in
     let near := ["repo"; "Build_plan"; "m3"; "overview.html"] in
     let far := ["repo"; "Build_plan"; "m7"; "overview.html"] in
     Polish.choose_best_candidate page [near; far] = Some near
     ∧ Polish.choose_best_candidate page [far; near] = Some near
     ∧ Polish.to_rel (Path.resolve (Path.parent page)) (Path.resolve near) = "overview.html").
Proof.
  intros Hne cur_dir. split; [| by vm_compute].
  destruct (sorted_reverse_head (Polish.score cur_dir) triple_le
              triple_le_total triple_le_trans candidates Hne)
    as (best & pre & post & -> & Hhd & Hpre & Hpost).
  exists best, pre, post. repeat split; [done | | done].
  intros c [Hc | [-> | Hc]%elem_of_cons]%elem_of_app.
  - destruct (triple_le_total (Polish.score cur_dir c) (Polish.score cur_dir best))
      as [? | Hbc]; [done |]. by rewrite (Hpre c Hc) in Hbc.
  - by destruct (triple_le_total (Polish.score cur_dir best) (Polish.score cur_dir best)).
  - by apply Hpost.
Qed.

Lemma best_candidate_has_greatest_score_witness :
  ∃ best,
    Polish.choose_best_candidate ["repo"; "Build_plan"; "page.html"]
      [["repo"; "Build_plan"; "a"; "overview.html"];
       ["repo"; "Build_plan"; "B"; "overview.html"]] = Some best.
Proof.
  destruct (best_candidate_has_greatest_score ["repo"; "Build_plan"; "page.html"]
              [["repo"; "Build_plan"; "a"; "overview.html"];
               ["repo"; "Build_plan"; "B"; "overview.html"]])
    as [(best & _ & _ & _ & Hbest & _) _]; [done |].
  by exists best.
Defined.

(** C7 as worded fails: with the path string itself as the last
    component, [a/overview.html] scores above [B/overview.html], yet the
    engine, which compares lower-cased strings, picks the latter. *)
Lemma raw_path_tie_break_not_used :
  let page := ["repo"; "Build_plan"; "page.html"] in
  let lower_a := ["repo"; "Build_plan"; "a"; "overview.html"] in
  let upper_b := ["repo"; "Build_plan"; "B"; "overview.html"] in
  let cur_dir := Path.resolve (Path.parent page) in
  Polish.choose_best_candidate page [lower_a; upper_b] = Some upper_b
  ∧ triple_le (Spec.score cur_dir upper_b) (Spec.score cur_dir lower_a) = true
  ∧ triple_le (Spec.score cur_dir lower_a) (Spec.score cur_dir upper_b) = false.
Proof. repeat split; by vm_compute. Qed.

(** ** Names of documents and of their backups *)

Lemma rev_app_append a b : String.rev_app a b = String.rev a +:+ b.
Proof.
  revert b. induction a as [|c a IH]; intros b; [done |].
  unfold String.rev. simpl. by rewrite (IH (String c b)), (IH (String c "")), append_assoc.
Qed.

Lemma rev_cons c a : String.rev (String c a) = String.rev a +:+ String c "".
Proof. unfold String.rev at 1. simpl. apply rev_app_append. Qed.

Lemma rev_append a b : String.rev (a +:+ b) = String.rev b +:+ String.rev a.
Proof.
  induction a as [|c a IH]; [by rewrite append_nil_l, append_nil_r |].
  by rewrite append_cons, !rev_cons, IH, append_assoc.
Qed.

Lemma rev_involutive a : String.rev (String.rev a) = a.
Proof.
  induction a as [|c a IH]; [done |].
  by rewrite rev_cons, rev_append, IH.
Qed.

Lemma append_inj_r a b c : a +:+ c = b +:+ c → a = b.
Proof.
  intros Heq. apply (f_equal String.rev) in Heq. rewrite !rev_append in Heq.
  apply (inj (String.app _)) in Heq.
  by rewrite <- (rev_involutive a), Heq, rev_involutive.
Qed.

Lemma html_name_is_no_backup_name x :
  Py.endswith ".html" (x +:+ ".bak_polish") = false.
Proof. unfold Py.endswith. by rewrite rev_append. Qed.

Lemma take_drop_string i s : Py.take i s +:+ Py.drop i s = s.
Proof.
  revert s. induction i as [|i IH]; intros [|c s]; simpl; try done.
  by rewrite append_cons, IH.
Qed.

Lemma length_drop_string i s : String.length (Py.drop i s) = (String.length s - i)%nat.
Proof. revert s. induction i as [|i IH]; intros [|c s]; simpl; auto. Qed.

Lemma rfind_char_lt c s i : Py.rfind_char c s = Some i → (i < String.length s)%nat.
Proof.
  revert i. induction s as [|a s IH]; intros i; simpl; [done |].
  destruct (Py.rfind_char c s) as [j|].
  - intros [= <-]. specialize (IH j eq_refl). lia.
  - case_bool_decide; [intros [= <-]; lia | done].
Qed.

(** A name is its stem followed by its suffix. *)
Lemma stem_suffix_of_name n :
  Path.suffix_of_name n = "" ∨
  Py.take (String.length n - String.length (Path.suffix_of_name n)) n
    +:+ Path.suffix_of_name n = n.
Proof.
  unfold Path.suffix_of_name.
  destruct (Py.rfind_char "." n) as [i|] eqn:Hi; [| by left].
  destruct (_ && _); [| by left]. right.
  apply rfind_char_lt in Hi. rewrite length_drop_string.
  replace (String.length n - (String.length n - i))%nat with i by lia.
  apply take_drop_string.
Qed.

Lemma backup_path_eq f :
  Polish.backup_path f = Path.parent f ++ [Path.name f +:+ ".bak_polish"].
Proof.
  unfold Polish.backup_path, Path.with_suffix, Path.suffix. f_equal. f_equal.
  case_bool_decide as Hold.
  - by rewrite Hold.
  - destruct (stem_suffix_of_name (Path.name f)) as [? | Heq]; [done |].
    by rewrite <- append_assoc, Heq.
Qed.

Lemma name_snoc (l : list string) n : Path.name (l ++ [n]) = n.
Proof. unfold Path.name. by rewrite last_snoc. Qed.

Lemma path_parent_name (p : list string) : p ≠ [] → p = Path.parent p ++ [Path.name p].
Proof.
  destruct p as [|n l _] using rev_ind; [done |]. intros _.
  unfold Path.parent. by rewrite removelast_last, name_snoc.
Qed.

Lemma html_named_nonempty p : Py.endswith ".html" (Path.name p) = true → p ≠ [].
Proof. by intros Hp ->. Qed.

Lemma html_named_is_no_backup g f :
  Py.endswith ".html" (Path.name g) = true → g ≠ Polish.backup_path f.
Proof.
  intros Hg ->. by rewrite backup_path_eq, name_snoc, html_name_is_no_backup_name in Hg.
Qed.

Lemma backup_path_inj g f :
  g ≠ [] → f ≠ [] → Polish.backup_path g = Polish.backup_path f → g = f.
Proof.
  intros Hg Hf. rewrite !backup_path_eq.
  intros [Hpar Hname%append_inj_r]%app_inj_tail.
  by rewrite (path_parent_name g), (path_parent_name f), Hpar, Hname.
Qed.

(** ** Backups *)

Lemma exists_write_text fs p q text :
  FS.exists_ fs q = true → FS.exists_ (FS.write_text fs p text) q = true.
Proof.
  unfold FS.exists_, FS.write_text. simpl.
  rewrite !orb_true_iff, !bool_decide_eq_true.
  intros [[Hq | ?] | ?]; auto. left. left.
  destruct (decide (p = q)) as [-> | ?];
    [by rewrite lookup_insert_eq | by rewrite lookup_insert_ne].
Qed.

Lemma exists_write_text_other fs p q text :
  p ≠ q → FS.exists_ (FS.write_text fs p text) q = FS.exists_ fs q.
Proof.
  intros Hne. unfold FS.exists_, FS.write_text. simpl. by rewrite lookup_insert_ne.
Qed.

(** [write_fixes] touches the document and, when it is absent, the
    backup, and nothing else. *)
Lemma write_fixes_other fs g text repls p :
  p ≠ g → p ≠ Polish.backup_path g →
  FS.files (Polish.write_fixes fs g text repls) !! p = FS.files fs !! p
  ∧ FS.exists_ (Polish.write_fixes fs g text repls) p = FS.exists_ fs p.
Proof.
  intros Hg Hb. unfold Polish.write_fixes.
  destruct (negb _); simpl.
  - rewrite !lookup_insert_ne by done. split; [done |].
    by rewrite !exists_write_text_other.
  - rewrite lookup_insert_ne by done. split; [done |].
    by rewrite exists_write_text_other.
Qed.

Lemma write_fixes_existing_backup fs g text repls :
  g ≠ Polish.backup_path g →
  FS.exists_ fs (Polish.backup_path g) = true →
  FS.files (Polish.write_fixes fs g text repls) !! Polish.backup_path g
  = FS.files fs !! Polish.backup_path g.
Proof.
  intros Hg Hex. unfold Polish.write_fixes. rewrite Hex. simpl.
  by rewrite lookup_insert_ne.
Qed.

Lemma write_fixes_new_backup fs g text repls :
  g ≠ Polish.backup_path g →
  FS.exists_ fs (Polish.backup_path g) = false →
  FS.files (Polish.write_fixes fs g text repls) !! Polish.backup_path g = Some text.
Proof.
  intros Hg Hex. unfold Polish.write_fixes. rewrite Hex. simpl.
  by rewrite lookup_insert_ne, lookup_insert_eq.
Qed.

Lemma write_fixes_exists fs g text repls p :
  FS.exists_ fs p = true → FS.exists_ (Polish.write_fixes fs g text repls) p = true.
Proof.
  intros Hp. unfold Polish.write_fixes.
  destruct (negb _); by repeat apply exists_write_text.
Qed.

Section backups.
Context `{Urllib}.

(** One document leaves the tree as it is or writes its fixes. *)
Lemma process_document_tree repo apply idx fs g issues fs' r :
  Polish.process_document repo apply idx fs g issues = (fs', r) →
  fs' = fs
  ∨ ∃ text repls, FS.files fs !! g = Some text ∧ fs' = Polish.write_fixes fs g text repls.
Proof.
  unfold Polish.process_document.
  destruct (FS.files fs !! g) as [text|]; [| intros [= <- _]; by left].
  destruct (Polish.scan_matches _ _ _ _ _ _) as [acc|]; [| intros [= <- _]; by left].
  destruct (_ && _); intros [= <- _]; [| by left].
  right. by exists text, (Polish.replacements acc).
Qed.

(** A backup that exists is left alone. *)
Lemma process_documents_keep_backup repo apply idx docs fs issues fs' r f :
  Forall (λ g, Py.endswith ".html" (Path.name g) = true) docs →
  Polish.process_documents repo apply idx fs docs issues = (fs', r) →
  FS.exists_ fs (Polish.backup_path f) = true →
  FS.files fs' !! Polish.backup_path f = FS.files fs !! Polish.backup_path f
  ∧ FS.exists_ fs' (Polish.backup_path f) = true.
Proof.
  intros Hdocs. revert fs issues.
  induction Hdocs as [|g docs Hg _ IH]; intros fs issues; simpl.
  - by intros [= <- _].
  - destruct (Polish.process_document _ _ _ _ _ _) as [fs1 r1] eqn:Hdoc.
    intros Hrest Hex.
    assert (FS.files fs1 !! Polish.backup_path f = FS.files fs !! Polish.backup_path f
            ∧ FS.exists_ fs1 (Polish.backup_path f) = true) as [Hfiles Hex1].
    { apply process_document_tree in Hdoc as [-> | (text & repls & _ & ->)]; [done |].
      split; [| by apply write_fixes_exists].
      pose proof (html_named_is_no_backup g g Hg).
      destruct (decide (Polish.backup_path f = Polish.backup_path g)) as [Heq | Hne].
      - rewrite Heq in *. by apply write_fixes_existing_backup.
      - apply write_fixes_other; [| done].
        intros Heq. by apply (html_named_is_no_backup g f Hg). }
    destruct r1 as [issues1|]; [| by injection Hrest as <- _].
    rewrite <- Hfiles. by eapply IH.
Qed.

(** When the document has no backup yet: either there is still none and
    the document is untouched, or the backup holds what the document
    held at the start. *)
Definition backup_state (fs0 fs : FS.t) (f : list string) : Prop :=
  (FS.files fs !! Polish.backup_path f = None
   ∧ (FS.exists_ fs (Polish.backup_path f) = false → FS.files fs !! f = FS.files fs0 !! f))
  ∨ (is_Some (FS.files fs !! Polish.backup_path f)
     ∧ FS.files fs !! Polish.backup_path f = FS.files fs0 !! f).

Lemma process_documents_backup_state repo apply idx docs fs0 fs issues fs' r f :
  Py.endswith ".html" (Path.name f) = true →
  Forall (λ g, Py.endswith ".html" (Path.name g) = true) docs →
  Polish.process_documents repo apply idx fs docs issues = (fs', r) →
  backup_state fs0 fs f → backup_state fs0 fs' f.
Proof.
  intros Hf Hdocs. revert fs issues.
  induction Hdocs as [|g docs Hg _ IH]; intros fs issues; simpl.
  - by intros [= <- _].
  - destruct (Polish.process_document _ _ _ _ _ _) as [fs1 r1] eqn:Hdoc.
    intros Hrest Hst.
    assert (backup_state fs0 fs1 f) as Hst1.
    { apply process_document_tree in Hdoc as [-> | (text & repls & Htext & ->)]; [done |].
      pose proof (html_named_is_no_backup g g Hg) as Hgg.
      pose proof (html_named_is_no_backup g f Hg) as Hgf.
      pose proof (html_named_is_no_backup f g Hf) as Hfg.
      destruct Hst as [[Hnone Hsame] | [Hsome Horig]].
      - destruct (decide (g = f)) as [-> | Hne].
        + destruct (FS.exists_ fs (Polish.backup_path f)) eqn:Hex.
          * left. rewrite write_fixes_existing_backup by done. split; [done |].
            by rewrite write_fixes_exists.
          * right. rewrite write_fixes_new_backup by done.
            rewrite <- (Hsame eq_refl), Htext. eauto.
        + assert (Polish.backup_path f ≠ Polish.backup_path g) as Hbb.
          { intros Heq. apply Hne. symmetry.
            apply backup_path_inj; auto using html_named_nonempty. }
          destruct (write_fixes_other fs g text repls (Polish.backup_path f))
            as [Hfiles Hexs]; [done.. |].
          left. rewrite Hfiles, Hexs. split; [done |]. intros Hex.
          rewrite <- (Hsame Hex). by apply write_fixes_other.
      - right. destruct Hsome as [orig Hsome].
        assert (FS.exists_ fs (Polish.backup_path f) = true) as Hex.
        { unfold FS.exists_. by rewrite Hsome. }
        assert (FS.files (Polish.write_fixes fs g text repls) !! Polish.backup_path f
                = FS.files fs !! Polish.backup_path f) as ->; [| by rewrite Hsome in *].
        destruct (decide (Polish.backup_path f = Polish.backup_path g)) as [Heq | Hne].
        + rewrite Heq in *. by apply write_fixes_existing_backup.
        + by apply write_fixes_other. }
    destruct r1 as [issues1|]; [| by injection Hrest as <- _].
    by eapply IH.
Qed.

Lemma html_files_of_named fs listing :
  Forall (λ g, Py.endswith ".html" (Path.name g) = true) (Polish.html_files_of fs listing).
Proof.
  apply Forall_forall. intros g Hg. unfold Polish.html_files_of, sorted in Hg.
  rewrite sort_stable_perm in Hg. by apply list_elem_of_filter in Hg as [[? _] _].
Qed.

(** What a whole run does to the backup of [f] *)
Lemma main_backup repo build_plan apply stamp listing fs fs' r f :
  Polish.main repo build_plan apply stamp listing fs = (fs', r) →
  (FS.exists_ fs (Polish.backup_path f) = true →
     FS.files fs' !! Polish.backup_path f = FS.files fs !! Polish.backup_path f
     ∧ FS.exists_ fs' (Polish.backup_path f) = true)
  ∧ (Py.endswith ".html" (Path.name f) = true →
     backup_state fs fs f → backup_state fs fs' f).
Proof.
  unfold Polish.main.
  destruct (negb _); [by intros [= <- _] |].
  destruct (FS.mkdir_p _ _) as [fs1|] eqn:Hmk; [| by intros [= <- _]].
  unfold FS.mkdir_p in Hmk. destruct (existsb _ _); [done |]. injection Hmk as <-.
  intros Hrun. split.
  - intros Hex.
    apply (process_documents_keep_backup _ _ _ _ _ _ _ _ f (html_files_of_named _ _) Hrun).
    revert Hex. unfold FS.exists_. simpl. rewrite !orb_true_iff, !bool_decide_eq_true.
    set_solver.
  - intros Hf Hst.
    apply (process_documents_backup_state _ _ _ _ _ _ _ _ _ f Hf
             (html_files_of_named _ _) Hrun).
    destruct Hst as [[Hnone Hsame] | Hsome]; [left | by right].
    split; [done |]. intros Hex. simpl. apply Hsame.
    revert Hex. unfold FS.exists_. simpl. rewrite !orb_false_iff, !bool_decide_eq_false.
    set_solver.
Qed.

(** C8: over two runs in a row, a backup that exists before the first
    run keeps its content, and the backup of a document that had none
    is, after either run, absent or the content the document had before
    the first run. *)
Theorem backup_holds_first_original repo build_plan apply1 apply2 stamp1 stamp2
    listing1 listing2 fs fs1 fs2 r1 r2 (f : list string) :
  Polish.main repo build_plan apply1 stamp1 listing1 fs = (fs1, r1) →
  Polish.main repo build_plan apply2 stamp2 listing2 fs1 = (fs2, r2) →
  (FS.exists_ fs (Polish.backup_path f) = true →
     FS.files fs1 !! Polish.backup_path f = FS.files fs !! Polish.backup_path f
     ∧ FS.files fs2 !! Polish.backup_path f = FS.files fs !! Polish.backup_path f)
  ∧ (Py.endswith ".html" (Path.name f) = true →
     FS.exists_ fs (Polish.backup_path f) = false →
     (FS.files fs1 !! Polish.backup_path f = None
      ∨ FS.files fs1 !! Polish.backup_path f = FS.files fs !! f)
     ∧ (FS.files fs2 !! Polish.backup_path f = None
        ∨ FS.files fs2 !! Polish.backup_path f = FS.files fs !! f)).
Proof.
  intros Hrun1 Hrun2.
  destruct (main_backup _ _ _ _ _ _ _ _ f Hrun1) as [Hkeep1 Hst1].
  destruct (main_backup _ _ _ _ _ _ _ _ f Hrun2) as [Hkeep2 Hst2].
  split.
  - intros Hex. destruct (Hkeep1 Hex) as [Hfiles1 Hex1].
    split; [done |]. destruct (Hkeep2 Hex1) as [Hfiles2 _]. congruence.
  - intros Hf Hex.
    assert (backup_state fs fs f) as Hst0.
    { left. split; [| done].
      revert Hex. unfold FS.exists_. rewrite !orb_false_iff, bool_decide_eq_false.
      intros [[Hn _] _]. by apply eq_None_not_Some. }
    specialize (Hst1 Hf Hst0).
    destruct Hst1 as [[Hnone1 Hsame1] | [Hsome1 Horig1]].
    + split; [by left |].
      destruct (FS.exists_ fs1 (Polish.backup_path f)) eqn:Hex1.
      * left. destruct (Hkeep2 eq_refl) as [-> _]. done.
      * assert (backup_state fs1 fs1 f) as Hst by (left; done).
        destruct (Hst2 Hf Hst) as [[? _] | [_ ?]]; [by left |].
        right. by rewrite <- (Hsame1 eq_refl).
    + split; [by right |]. right.
      assert (FS.exists_ fs1 (Polish.backup_path f) = true) as Hex1.
      { destruct Hsome1 as [x Hx]. unfold FS.exists_. by rewrite Hx. }
      destruct (Hkeep2 Hex1) as [-> _]. done.
Qed.

End backups.

Lemma backup_holds_first_original_witness :
  let page := ["r"; "Build_plan"; "m3"; "page.html"] in
  let run1 := Polish.main (H := UrllibModel.urllib_model) ["r"] "Build_plan" true
                "20260101_000000" Examples.first_listing Examples.two_links_tree in
  let run2 := Polish.main (H := UrllibModel.urllib_model) ["r"] "Build_plan" true
                "20260102_000000" Examples.second_listing run1.1 in
  ((FS.files run1.1 !! Polish.backup_path page = None
    ∨ FS.files run1.1 !! Polish.backup_path page = FS.files Examples.two_links_tree !! page)
   ∧ (FS.files run2.1 !! Polish.backup_path page = None
      ∨ FS.files run2.1 !! Polish.backup_path page = FS.files Examples.two_links_tree !! page))
  ∧ FS.files run1.1 !! page
    = Some "<a href='../m7/overview.html'>o</a> <a href='notes.html'>n</a>"
  ∧ FS.files run2.1 !! page
    = Some "<a href='../m7/overview.html'>o</a> <a href='../m7/notes.html'>n</a>"
  ∧ FS.files run2.1 !! Polish.backup_path page = Some Examples.two_links.
Proof.
  intros page run1 run2. split; [| by vm_compute].
  apply (backup_holds_first_original (H := UrllibModel.urllib_model)
           ["r"] "Build_plan" true true "20260101_000000" "20260102_000000"
           Examples.first_listing Examples.second_listing
           Examples.two_links_tree run1.1 run2.1 run1.2 run2.2 page).
  - apply surjective_pairing.
  - apply surjective_pairing.
  - vm_compute. reflexivity.
  - vm_compute. reflexivity.
Defined.

(** ** Moving files *)

Lemma exists_spec fs p :
  FS.exists_ fs p = true ↔ is_Some (FS.files fs !! p) ∨ p ∈ FS.dirs fs ∨ p = [].
Proof.
  unfold FS.exists_. rewrite !orb_true_iff, !bool_decide_eq_true. tauto.
Qed.

Lemma not_exists_spec fs p :
  FS.exists_ fs p = false ↔ FS.files fs !! p = None ∧ (p ∉ FS.dirs fs) ∧ p ≠ [].
Proof.
  unfold FS.exists_. rewrite !orb_false_iff, !bool_decide_eq_false, eq_None_not_Some. tauto.
Qed.

Lemma mkdir_p_files fs p fs' :
  FS.mkdir_p fs p = Ok fs' → FS.files fs' = FS.files fs ∧ FS.dirs fs ⊆ FS.dirs fs'.
Proof.
  unfold FS.mkdir_p. destruct (existsb _ _); [done |].
  intros [= <-]. simpl. split; [done | set_solver].
Qed.

(** Renaming a file onto a free path keeps the multiset of contents. *)
Lemma rename_file_contents fs src dest content :
  FS.files fs !! src = Some content → FS.files fs !! dest = None →
  FS.contents (FS.rename_file fs src dest content) = FS.contents fs.
Proof.
  intros Hsrc Hdest. unfold FS.contents, FS.rename_file. simpl.
  apply list_to_set_disj_perm.
  rewrite map_to_list_insert by (rewrite lookup_delete_ne; [done | congruence]).
  rewrite <- (map_to_list_delete (FS.files fs) src content Hsrc). done.
Qed.

(** The name [move_file] tries as its [i]-th *)
Definition candidate (dest : list string) (i : nat) : list string :=
  Path.parent dest ++ [Path.stem dest +:+ "__" +:+ pretty i +:+ Path.suffix dest].

Lemma candidate_inj dest i j : candidate dest i = candidate dest j → i = j.
Proof.
  unfold candidate. intros Heq%app_inv_head. injection Heq as Heq.
  apply (inj (String.app _)) in Heq. apply (inj (String.app _)) in Heq.
  apply append_inj_r in Heq. by apply (inj pretty) in Heq.
Qed.

(** What the loop returns is the first free name from [i] on. *)
Lemma first_free_spec fs dest i fuel c :
  Reorg.first_free fs (Path.parent dest) (Path.stem dest) (Path.suffix dest) i fuel = Some c →
  ∃ k, (i ≤ k)%nat ∧ c = candidate dest k ∧ FS.exists_ fs c = false
       ∧ ∀ j, (i ≤ j < k)%nat → FS.exists_ fs (candidate dest j) = true.
Proof.
  revert i. induction fuel as [|fuel IH]; intros i; simpl; [done |].
  fold (candidate dest i).
  destruct (FS.exists_ fs (candidate dest i)) eqn:Hex.
  - intros (k & Hk & -> & Hfree & Hbusy)%IH. exists k. repeat split; [lia | done |].
    intros j Hj. destruct (decide (j = i)) as [-> | ?]; [done |]. apply Hbusy. lia.
  - intros [= <-]. exists i. repeat split; [done.. |]. intros j Hj. lia.
Qed.

Lemma first_free_none fs dest i fuel :
  Reorg.first_free fs (Path.parent dest) (Path.stem dest) (Path.suffix dest) i fuel = None →
  ∀ j, (i ≤ j < i + fuel)%nat → FS.exists_ fs (candidate dest j) = true.
Proof.
  revert i. induction fuel as [|fuel IH]; intros i; simpl; [intros _ j Hj; lia |].
  fold (candidate dest i).
  destruct (FS.exists_ fs (candidate dest i)) eqn:Hex; [| done].
  intros Hnone j Hj. destruct (decide (j = i)) as [-> | ?]; [done |].
  apply (IH _ Hnone). lia.
Qed.

(** The loop ends: there are more probes than paths in the tree. *)
Lemma first_free_total fs dest i :
  is_Some (Reorg.first_free fs (Path.parent dest) (Path.stem dest) (Path.suffix dest)
             i (Reorg.probes fs)).
Proof.
  destruct (Reorg.first_free _ _ _ _ _ _) as [c|] eqn:Hnone; [by eexists |].
  exfalso. pose proof (first_free_none _ _ _ _ Hnone) as Hbusy.
  set (n := Reorg.probes fs) in *.
  set (cands := candidate dest <$> seq i n).
  assert (NoDup cands) as Hnd.
  { apply NoDup_fmap_2_strong; [| apply NoDup_seq].
    intros j j' _ _. apply candidate_inj. }
  assert (list_to_set cands ⊆ dom (FS.files fs) ∪ FS.dirs fs) as Hsub.
  { intros c [j [-> Hj%elem_of_seq]]%elem_of_list_to_set%list_elem_of_fmap.
    specialize (Hbusy j Hj). apply exists_spec in Hbusy as [Hf | [Hd | Hroot]].
    - apply elem_of_union_l. by apply elem_of_dom.
    - by apply elem_of_union_r.
    - unfold candidate in Hroot. by destruct (Path.parent dest). }
  apply subseteq_size in Hsub. rewrite size_list_to_set in Hsub by done.
  pose proof (size_union_alt (dom (FS.files fs)) (FS.dirs fs)) as Hu.
  pose proof (subseteq_size (FS.dirs fs ∖ dom (FS.files fs)) (FS.dirs fs)
                ltac:(set_solver)) as Hd.
  rewrite size_dom in Hu.
  unfold cands in Hsub. rewrite length_fmap, length_seq in Hsub.
  unfold n, Reorg.probes in Hsub. lia.
Qed.

(** [shutil.move] onto a path that does not exist is a plain rename. *)
Lemma shutil_move_free fs src dest content :
  FS.files fs !! src = Some content → FS.exists_ fs dest = false →
  FS.shutil_move fs src dest = Ok (FS.rename_file fs src dest content).
Proof.
  intros Hsrc (_ & Hd & Hroot)%not_exists_spec. unfold FS.shutil_move. rewrite Hsrc.
  by rewrite (bool_decide_eq_false_2 _ Hd), (bool_decide_eq_false_2 _ Hroot).
Qed.

(** The path [move_file] settles on: the destination when it is free,
    else the first free [stem__i.suffix] with [i] from 2. *)
Definition settles_on (fs : FS.t) (dest target : list string) : Prop :=
  FS.exists_ fs target = false
  ∧ if FS.exists_ fs dest
    then ∃ k, (2 ≤ k)%nat ∧ target = candidate dest k
              ∧ ∀ j, (2 ≤ j < k)%nat → FS.exists_ fs (candidate dest j) = true
    else target = dest.

(** What [move_file] does, case by case: it raises before touching
    any file, or it renames the source onto a path that was free. *)
Lemma move_file_cases fs src dest :
  (∃ exc, Reorg.move_file fs src dest = (fs, Some exc)
          ∧ FS.mkdir_p fs (Path.parent dest) = Raise exc)
  ∨ (∃ fs1, FS.mkdir_p fs (Path.parent dest) = Ok fs1
     ∧ ((∃ exc, Reorg.move_file fs src dest = (fs1, Some exc) ∧ FS.files fs !! src = None)
        ∨ (∃ content target,
             FS.files fs !! src = Some content
             ∧ settles_on fs1 dest target
             ∧ Reorg.move_file fs src dest = (FS.rename_file fs1 src target content, None)))).
Proof.
  unfold Reorg.move_file.
  destruct (FS.mkdir_p fs (Path.parent dest)) as [fs1|exc] eqn:Hmk; [right | left; eauto].
  exists fs1. split; [done |].
  destruct (mkdir_p_files _ _ _ Hmk) as [Hfiles _].
  assert (∃ target, (if FS.exists_ fs1 dest
                     then Reorg.first_free fs1 (Path.parent dest) (Path.stem dest)
                            (Path.suffix dest) 2 (Reorg.probes fs1)
                     else Some dest) = Some target
                    ∧ settles_on fs1 dest target) as (target & -> & Hset).
  { unfold settles_on. destruct (FS.exists_ fs1 dest) eqn:Hex.
    - destruct (first_free_total fs1 dest 2) as [c Hc]. exists c. split; [done |].
      apply first_free_spec in Hc as (k & ? & -> & ? & ?). eauto.
    - by exists dest. }
  destruct (FS.files fs !! src) as [content|] eqn:Hsrc.
  - right. exists content, target. split; [done |]. split; [done |].
    rewrite (shutil_move_free fs1 src target content); [done | congruence | apply Hset].
  - left. unfold FS.shutil_move. rewrite Hfiles, Hsrc. eauto.
Qed.

Lemma move_file_contents fs src dest :
  FS.contents (Reorg.move_file fs src dest).1 = FS.contents fs.
Proof.
  destruct (move_file_cases fs src dest)
    as [(exc & -> & _) | (fs1 & Hmk & [(exc & -> & _) | (c & t & Hsrc & [Hfree _] & ->)])];
    simpl; [done | |]; destruct (mkdir_p_files _ _ _ Hmk) as [Hfiles _].
  - unfold FS.contents. by rewrite Hfiles.
  - rewrite rename_file_contents.
    + unfold FS.contents. by rewrite Hfiles.
    + congruence.
    + by apply not_exists_spec in Hfree as [? _].
Qed.

(** No file but the source loses its path or its content. *)
Lemma move_file_keeps fs src dest p content :
  p ≠ src → FS.files fs !! p = Some content →
  FS.files (Reorg.move_file fs src dest).1 !! p = Some content.
Proof.
  intros Hp Hfile.
  destruct (move_file_cases fs src dest)
    as [(exc & -> & _) | (fs1 & Hmk & [(exc & -> & _) | (c & t & Hsrc & [Hfree _] & ->)])];
    simpl; [done | |]; destruct (mkdir_p_files _ _ _ Hmk) as [Hfiles _].
  - by rewrite Hfiles.
  - apply not_exists_spec in Hfree as [Hnone _].
    rewrite lookup_insert_ne by congruence.
    rewrite lookup_delete_ne by done. by rewrite Hfiles.
Qed.

Lemma safe_mkdirs_files fs ds :
  FS.files (Reorg.safe_mkdirs fs ds).1 = FS.files fs.
Proof.
  revert fs. induction ds as [|d ds IH]; intros fs; simpl; [done |].
  destruct (FS.mkdir_p fs d) as [fs'|] eqn:Hmk; [| done].
  rewrite IH. by apply mkdir_p_files in Hmk as [? _].
Qed.

Lemma execute_moves_contents rdir actions fs :
  FS.contents (Reorg.execute_moves rdir fs actions).1 = FS.contents fs.
Proof.
  revert fs. induction actions as [|[src dst] actions IH]; intros fs; simpl; [done |].
  destruct (negb _); [apply IH |].
  destruct (Path.is_proper_ancestor _ _); [apply IH |].
  pose proof (move_file_contents fs src dst) as Hmove.
  destruct (Reorg.move_file fs src dst) as [fs' [exc|]]; simpl in *; [done |].
  by rewrite IH.
Qed.

Lemma execute_moves_keeps rdir actions fs p content :
  p ∉ actions.*1 → FS.files fs !! p = Some content →
  FS.files (Reorg.execute_moves rdir fs actions).1 !! p = Some content.
Proof.
  revert fs. induction actions as [|[src dst] actions IH]; intros fs; simpl; [done |].
  intros [Hp Hrest]%not_elem_of_cons Hfile.
  destruct (negb _); [by apply IH |].
  destruct (Path.is_proper_ancestor _ _); [by apply IH |].
  pose proof (move_file_keeps fs src dst p content Hp Hfile) as Hmove.
  destruct (Reorg.move_file fs src dst) as [fs' [exc|]]; simpl in *; [done |].
  by apply IH.
Qed.

(** The applied run keeps every content: whatever the planned moves and
    however the run ends, the multiset of file contents in the tree is
    the one before the run, and a file that is not the source of a move
    keeps its path and content. *)
Theorem apply_changes_loses_nothing root stamp fs actions :
  FS.contents (Reorg.apply_changes root stamp fs actions).1 = FS.contents fs
  ∧ ∀ p content,
      p ∉ actions.*1 → FS.files fs !! p = Some content →
      FS.files (Reorg.apply_changes root stamp fs actions).1 !! p = Some content.
Proof.
  unfold Reorg.apply_changes.
  pose proof (safe_mkdirs_files fs
    ((Path.joinpath root <$> Reorg.REPO_LAYOUT_KEYS ++ Reorg.ARCHIVE_SUBFOLDERS)
       ++ [Reorg.report_dir root stamp])) as Hfiles.
  destruct (Reorg.safe_mkdirs fs _) as [fs1 [exc|]]; simpl in *.
  - split; [unfold FS.contents; by rewrite Hfiles | intros; by rewrite Hfiles].
  - split.
    + rewrite execute_moves_contents. unfold FS.contents. by rewrite Hfiles.
    + intros p content Hp Hfile. apply execute_moves_keeps; [done |]. by rewrite Hfiles.
Qed.

(** A destination that is taken: the file lands on the first free
    numbered name, and the occupant stays. *)
Theorem move_file_disambiguates fs src dest content fs1 :
  FS.files fs !! src = Some content →
  FS.mkdir_p fs (Path.parent dest) = Ok fs1 →
  ∃ target,
    Reorg.move_file fs src dest = (FS.rename_file fs1 src target content, None)
    ∧ FS.exists_ fs1 target = false
    ∧ (FS.exists_ fs1 dest = false → target = dest)
    ∧ (FS.exists_ fs1 dest = true →
       ∃ k, (2 ≤ k)%nat
            ∧ target = Path.parent dest
                       ++ [Path.stem dest +:+ "__" +:+ pretty k +:+ Path.suffix dest]
            ∧ (∀ j, (2 ≤ j < k)%nat → FS.exists_ fs1 (candidate dest j) = true)
            ∧ (src ≠ dest →
               FS.files (Reorg.move_file fs src dest).1 !! dest = FS.files fs !! dest)).
Proof.
  intros Hsrc Hmk.
  destruct (move_file_cases fs src dest)
    as [(exc & _ & Hr) | (fs1' & Hmk' & [(exc & _ & Hn) | (c & t & Hsrc' & [Hfree Hset] & Hmove)])];
    [congruence | congruence |].
  assert (fs1' = fs1) as -> by congruence. assert (c = content) as -> by congruence.
  exists t. split; [done |]. split; [done |].
  destruct (FS.exists_ fs1 dest) eqn:Hex.
  - split; [done |]. intros _. destruct Hset as (k & Hk & -> & Hbusy).
    exists k. repeat split; [done.. |]. intros Hne.
    rewrite Hmove. simpl. destruct (mkdir_p_files _ _ _ Hmk) as [Hfiles _].
    assert (candidate dest k ≠ dest) by (intros Heq; congruence).
    rewrite lookup_insert_ne by done.
    rewrite lookup_delete_ne by done. by rewrite Hfiles.
  - split; [done | done].
Qed.

Lemma move_file_disambiguates_witness :
  let src := ["repo"; "inbox"; "a.md"] in
  let dest := ["repo"; "docs"; "a.md"] in
  let fs1 := FS.mk (FS.files Examples.crowded_tree)
               (FS.dirs Examples.crowded_tree
                ∪ list_to_set (FS.ancestors_or_self ["repo"; "docs"])) in
  (∃ target,
     Reorg.move_file Examples.crowded_tree src dest
     = (FS.rename_file fs1 src target "new", None)
     ∧ FS.exists_ fs1 target = false
     ∧ (FS.exists_ fs1 dest = false → target = dest)
     ∧ (FS.exists_ fs1 dest = true →
        ∃ k, (2 ≤ k)%nat
             ∧ target = Path.parent dest
                        ++ [Path.stem dest +:+ "__" +:+ pretty k +:+ Path.suffix dest]
             ∧ (∀ j, (2 ≤ j < k)%nat → FS.exists_ fs1 (candidate dest j) = true)
             ∧ (src ≠ dest →
                FS.files (Reorg.move_file Examples.crowded_tree src dest).1 !! dest
                = FS.files Examples.crowded_tree !! dest)))
  ∧ FS.files (Reorg.move_file Examples.crowded_tree src dest).1 !! ["repo"; "docs"; "a__3.md"]
    = Some "new".
Proof.
  intros src dest fs1. split; [| vm_compute; reflexivity].
  apply (move_file_disambiguates Examples.crowded_tree src dest "new" fs1).
  - vm_compute. reflexivity.
  - vm_compute. reflexivity.
Defined.

Lemma apply_changes_loses_nothing_witness :
  let after :=
    (Reorg.apply_changes ["repo"] "20260101_000000" Examples.crowded_tree
       [(["repo"; "inbox"; "a.md"], ["repo"; "docs"; "a.md"])]).1 in
  FS.files after !! ["repo"; "docs"; "a.md"] = Some "first"
  ∧ FS.files after !! ["repo"; "docs"; "a__3.md"] = Some "new".
Proof.
  intros after. split; [| vm_compute; reflexivity].
  apply (proj2 (apply_changes_loses_nothing ["repo"] "20260101_000000"
                  Examples.crowded_tree
                  [(["repo"; "inbox"; "a.md"], ["repo"; "docs"; "a.md"])])).
  - intros Hin. apply list_elem_of_In in Hin. simpl in Hin.
    destruct Hin as [Heq | []]. discriminate Heq.
  - vm_compute. reflexivity.
Defined.



(** ** The scan *)

(** The entries the scan records: not a directory, no component of the
    relative path in [SKIP_DIRS]. *)
Definition recorded (root : list string) (e : Reorg.Entry) : bool :=
  negb (Reorg.e_is_dir e)
  && negb (Reorg.is_in_skip_dir
             (Path.parse_parts (Reorg.normalize_rel root (Reorg.e_path e)))).

(** A record as the scan leaves it *)
Definition fresh_record (root : list string) (hashing : bool) (r : Reorg.FileRecord) : Prop :=
  Reorg.rel_path r = Reorg.normalize_rel root (Reorg.abs_path r)
  ∧ Reorg.action r = Reorg.KEEP_IN_PLACE
  ∧ Reorg.dest_rel_path r = None
  ∧ (Reorg.sha256 r = None ∨ Reorg.reason r = "")
  ∧ (hashing = false → Reorg.sha256 r = None ∧ Reorg.reason r = "").

Lemma scan_entry_inv root hashing recs hm e recs' hm' :
  Reorg.scan_entry root hashing (recs, hm) e = Ok (recs', hm') →
  (recorded root e = false ∧ recs' = recs ∧ hm' = hm)
  ∨ (recorded root e = true
     ∧ ∃ r st_size, recs' = recs ++ [r]
         ∧ Reorg.abs_path r = Reorg.e_path e
         ∧ Reorg.e_stat e = Some (st_size, Reorg.mtime r)
         ∧ Reorg.size r = st_size
         ∧ fresh_record root hashing r
         ∧ match Reorg.sha256 r with
           | Some d => hashing = true ∧ Reorg.e_hash e = Ok d
                       ∧ hm' = Reorg.setdefault_append hm d (Reorg.abs_path r, Reorg.mtime r)
           | None => hm' = hm
           end).
Proof.
  unfold Reorg.scan_entry, recorded.
  destruct (Reorg.e_is_dir e); simpl; [intros [= <- <-]; by left |].
  destruct (Reorg.is_in_skip_dir _); simpl; [intros [= <- <-]; by left |].
  destruct (Reorg.e_stat e) as [[st_size st_mtime]|]; [| done].
  destruct hashing; [destruct (Reorg.e_hash e) as [d|exc] |];
    intros [= <- <-]; right; (split; [done |]);
    eexists _, st_size; (split; [done |]); simpl; unfold fresh_record; simpl;
    repeat split; auto; done.
Qed.

Lemma scan_loop_paths root hashing entries recs hm recs' hm' :
  Reorg.scan_loop root hashing entries (recs, hm) = Ok (recs', hm') →
  Reorg.abs_path <$> recs'
  = (Reorg.abs_path <$> recs) ++ (Reorg.e_path <$> filter (λ e, recorded root e = true) entries)
  ∧ (Forall (fresh_record root hashing) recs → Forall (fresh_record root hashing) recs').
Proof.
  revert recs hm. induction entries as [|e entries IH]; intros recs hm;
    cbn [Reorg.scan_loop].
  - intros [= <- <-]. by rewrite app_nil_r.
  - destruct (Reorg.scan_entry root hashing (recs, hm) e) as [[recs1 hm1]|] eqn:He;
      cbn [rbind]; [| done].
    intros [Hpaths Hfresh]%IH.
    apply scan_entry_inv in He
      as [(Hrec & -> & ->) | (Hrec & r & sz & -> & Hp & _ & _ & Hr & _)].
    + rewrite filter_cons_False by congruence. done.
    + rewrite filter_cons_True by done. split.
      * rewrite Hpaths, fmap_app, <- app_assoc. simpl. by rewrite Hp.
      * intros Hall. apply Hfresh. apply Forall_app. split; [done |]. by constructor.
Qed.



(** ** Duplicates *)

(** The paths of the records with digest [d], as [hash_map] lists them *)
Definition digest_paths (d : string) (recs : list Reorg.FileRecord) : list (list string * Z) :=
  (λ r, (Reorg.abs_path r, Reorg.mtime r)) <$> filter (λ r, Reorg.sha256 r = Some d) recs.

Lemma NoDup_fmap_filter {A B} (g : A → B) (P : A → Prop) `{∀ x, Decision (P x)} l :
  NoDup (g <$> l) → NoDup (g <$> filter P l).
Proof.
  induction l as [|x l IH]; [done |]. rewrite fmap_cons, NoDup_cons. intros [Hx Hl].
  rewrite filter_cons. destruct (decide (P x)); [| auto].
  rewrite fmap_cons, NoDup_cons. split; [| auto].
  intros (y & Hy & [_ Hin]%list_elem_of_filter)%list_elem_of_fmap.
  apply Hx, list_elem_of_fmap. eauto.
Qed.

Lemma NoDup_fmap_eq {A B} (g : A → B) l x y :
  NoDup (g <$> l) → x ∈ l → y ∈ l → g x = g y → x = y.
Proof.
  induction l as [|z l IH]; [by intros _ ?%elem_of_nil |].
  rewrite fmap_cons, NoDup_cons. intros [Hz Hl] Hx Hy Heq.
  apply elem_of_cons in Hx as [-> | Hx]; apply elem_of_cons in Hy as [-> | Hy]; auto.
  - exfalso. apply Hz, list_elem_of_fmap. eauto.
  - exfalso. apply Hz, list_elem_of_fmap. eauto.
Qed.

(** [hash_map] lists, under each digest, the records with that digest
    in scan order. *)
Lemma scan_loop_hash_map root hashing entries recs hm recs' hm' :
  Reorg.scan_loop root hashing entries (recs, hm) = Ok (recs', hm') →
  (∀ d, default [] (hm !! d) = digest_paths d recs) →
  ∀ d, default [] (hm' !! d) = digest_paths d recs'.
Proof.
  revert recs hm. induction entries as [|e entries IH]; intros recs hm;
    cbn [Reorg.scan_loop].
  - by intros [= <- <-].
  - destruct (Reorg.scan_entry root hashing (recs, hm) e) as [[recs1 hm1]|] eqn:He;
      cbn [rbind]; [| done].
    intros Hrest Hinv. apply (IH _ _ Hrest). intros d.
    apply scan_entry_inv in He
      as [(_ & -> & ->) | (_ & r & sz & -> & _ & _ & _ & _ & Hsha)]; [done |].
    unfold digest_paths. rewrite filter_app, fmap_app.
    destruct (Reorg.sha256 r) as [d0|] eqn:Hd0.
    + destruct Hsha as (_ & _ & ->). unfold Reorg.setdefault_append.
      destruct (decide (d0 = d)) as [-> | Hne].
      * rewrite lookup_insert_eq. simpl. rewrite Hinv.
        rewrite filter_cons_True by done. done.
      * rewrite lookup_insert_ne by done. rewrite Hinv.
        rewrite filter_cons_False by congruence. by rewrite app_nil_r.
    + subst hm1. rewrite Hinv.
      rewrite filter_cons_False by congruence. by rewrite app_nil_r.
Qed.

Lemma elem_of_find_duplicates hm p :
  p ∈ Reorg.find_duplicates true hm ↔ ∃ d, p ∈ Reorg.duplicates_of (default [] (hm !! d)).
Proof.
  unfold Reorg.find_duplicates. rewrite elem_of_union_list. split.
  - intros (X & ([d paths] & -> & Hkv%elem_of_map_to_list)%list_elem_of_fmap
              & Hp%elem_of_list_to_set).
    exists d. by rewrite Hkv.
  - intros [d Hp]. destruct (hm !! d) as [paths|] eqn:Hd; simpl in Hp.
    + exists (list_to_set (Reorg.duplicates_of paths)). split.
      * apply list_elem_of_fmap. exists (d, paths). split; [done |].
        by apply elem_of_map_to_list.
      * by apply elem_of_list_to_set.
    + by apply elem_of_nil in Hp.
Qed.

(** With hashing, a record is archived as a duplicate exactly when its
    resolved path is in [dup_paths]. *)
Lemma plan_record_duplicate root hashing dup_paths rec :
  Reorg.action (Reorg.plan_record root hashing dup_paths rec).1
    = Reorg.MOVE_TO_ARCHIVE_DUPLICATE
  ↔ hashing = true ∧ Path.resolve (Reorg.abs_path rec) ∈ dup_paths.
Proof.
  unfold Reorg.plan_record.
  destruct hashing; cbn [andb].
  - case_bool_decide as Hin; [by split |].
    split; [| by intros [_ ?]].
    destruct (Reorg.truthy _ && _); [done |].
    destruct (Reorg.choose_destination root _ _) as [dest why].
    destruct (bool_decide _); [done |].
    by destruct (Py.startswith "archive/_unknown_review/" dest).
  - split; [| by intros [? _]].
    destruct (Reorg.truthy _ && _); [done |].
    destruct (Reorg.choose_destination root _ _) as [dest why].
    destruct (bool_decide _); [done |].
    by destruct (Py.startswith "archive/_unknown_review/" dest).
Qed.

Lemma Z_leb_total a b : (a <=? b) = true ∨ (b <=? a) = true.
Proof. rewrite !Z.leb_le. lia. Qed.

Lemma Z_leb_trans a b c : (a <=? b) = true → (b <=? c) = true → (a <=? c) = true.
Proof. rewrite !Z.leb_le. lia. Qed.

(** With hashing on and no two scanned paths resolving to the same
    file: of the records that share a digest, a single one is never
    archived as a duplicate; of two or more, the first in scan order
    among those with the greatest modification time is kept out of the
    duplicates and every other one is archived as a duplicate. *)
Theorem newest_of_each_digest_is_kept root entries recs hm (d : string) :
  NoDup ((Path.resolve ∘ Reorg.e_path) <$> entries) →
  Reorg.scan root true entries = Ok (recs, hm) →
  let dup_paths := Reorg.find_duplicates true hm in
  let planned r := Reorg.action (Reorg.plan_record root true dup_paths r).1 in
  let group := filter (λ r, Reorg.sha256 r = Some d) recs in
  ((length group ≤ 1)%nat →
     ∀ r, r ∈ group → planned r ≠ Reorg.MOVE_TO_ARCHIVE_DUPLICATE)
  ∧ ((2 ≤ length group)%nat →
     ∃ pre keeper post,
       group = pre ++ keeper :: post
       ∧ (∀ r, r ∈ pre → Reorg.mtime r < Reorg.mtime keeper)
       ∧ (∀ r, r ∈ post → Reorg.mtime r ≤ Reorg.mtime keeper)
       ∧ planned keeper ≠ Reorg.MOVE_TO_ARCHIVE_DUPLICATE
       ∧ ∀ r, r ∈ pre ++ post → planned r = Reorg.MOVE_TO_ARCHIVE_DUPLICATE).
Proof.
  intros Hnd Hscan dup_paths planned group.
  assert (∀ d', default [] (hm !! d') = digest_paths d' recs) as Hinv.
  { apply (scan_loop_hash_map _ _ _ _ _ _ _ Hscan). intros d'. by rewrite lookup_empty. }
  destruct (scan_loop_paths _ _ _ _ _ _ _ Hscan) as [Hpaths _]. simpl in Hpaths.
  set (f := λ r, (Reorg.abs_path r, Reorg.mtime r)).
  set (g := Path.resolve ∘ Reorg.abs_path).
  assert (NoDup (g <$> recs)) as Hndr.
  { unfold g. rewrite list_fmap_compose, Hpaths, <- list_fmap_compose.
    by apply NoDup_fmap_filter. }
  assert (∀ r, r ∈ recs → g r ∈ dup_paths →
            ∃ d', Reorg.sha256 r = Some d' ∧ (1 < length (digest_paths d' recs))%nat
                  ∧ f r ∈ tail (sorted_reverse snd Z.leb (digest_paths d' recs))) as Hdup.
  { intros r Hr [d' Hin]%elem_of_find_duplicates. rewrite Hinv in Hin.
    unfold Reorg.duplicates_of in Hin.
    case_bool_decide as Hlen; [| by apply elem_of_nil in Hin].
    apply list_elem_of_fmap in Hin as (p & Hp & [[p' mt] [-> Hpair]]%list_elem_of_fmap).
    assert ((p', mt) ∈ digest_paths d' recs) as Hmem.
    { rewrite <- (sort_stable_perm snd (λ ky kx, Z.leb kx ky) (digest_paths d' recs)).
      fold (sorted_reverse snd Z.leb (digest_paths d' recs)).
      destruct (sorted_reverse snd Z.leb (digest_paths d' recs)); [done | by right]. }
    apply list_elem_of_fmap in Hmem as (r' & Heq & [Hsha Hr']%list_elem_of_filter).
    injection Heq as -> ->.
    assert (r' = r) as -> by (apply (NoDup_fmap_eq g recs); auto).
    exists d'. auto. }
  assert (∀ r, planned r = Reorg.MOVE_TO_ARCHIVE_DUPLICATE ↔ g r ∈ dup_paths) as Hplan.
  { intros r. unfold planned. rewrite plan_record_duplicate. unfold g. simpl. tauto. }
  assert (digest_paths d recs = f <$> group) as Hgroup by done.
  split.
  - intros Hlen r [Hsha Hr]%list_elem_of_filter Hd%Hplan.
    destruct (Hdup r Hr Hd) as (d' & Hsha' & Hlen' & _).
    assert (d' = d) as -> by congruence.
    rewrite Hgroup, length_fmap in Hlen'. lia.
  - intros Hlen.
    assert (digest_paths d recs ≠ []) as Hne.
    { rewrite Hgroup. intros Hnil%fmap_nil_inv. rewrite Hnil in Hlen. simpl in Hlen. lia. }
    destruct (sorted_reverse_head snd Z.leb Z_leb_total Z_leb_trans _ Hne)
      as (b & pre' & post' & Hsplit & Hhd & Hpre & Hpost).
    rewrite Hgroup in Hsplit.
    apply fmap_app_inv in Hsplit as (pre & rest & -> & Hrest & Hsplit).
    symmetry in Hrest. apply fmap_cons_inv in Hrest as (keeper & post & -> & -> & ->).
    destruct (sorted_reverse snd Z.leb (digest_paths d recs)) as [|b sorted_tl] eqn:Hsorted;
      [done |]. injection Hhd as ->.
    assert (sorted_tl ≡ₚ f <$> (pre ++ post)) as Htl.
    { apply (Permutation_cons_inv (a := f keeper)). rewrite <- Hsorted.
      unfold sorted_reverse. rewrite sort_stable_perm, Hgroup, Hsplit.
      rewrite !fmap_app, fmap_cons. by rewrite Permutation_middle. }
    assert (NoDup (g <$> group)) as Hndg by by apply NoDup_fmap_filter.
    exists pre, keeper, post. split; [done |]. split; [| split; [| split]].
    + intros r Hr. specialize (Hpre (f r)). simpl in Hpre.
      apply Z.leb_gt. apply Hpre. apply list_elem_of_fmap. eauto.
    + intros r Hr. specialize (Hpost (f r)). simpl in Hpost.
      apply Z.leb_le. apply Hpost. apply list_elem_of_fmap. eauto.
    + intros Hd%Hplan.
      assert (keeper ∈ recs) as Hk.
      { assert (keeper ∈ group) as Hin by (rewrite Hsplit; set_solver).
        by apply list_elem_of_filter in Hin as [_ ?]. }
      destruct (Hdup keeper Hk Hd) as (d' & Hsha' & _ & Hin).
      assert (Reorg.sha256 keeper = Some d) as Hsha.
      { assert (keeper ∈ group) as Hin' by (rewrite Hsplit; set_solver).
        by apply list_elem_of_filter in Hin' as [? _]. }
      assert (d' = d) as -> by congruence.
      rewrite Hsorted in Hin. simpl in Hin. rewrite Htl in Hin.
      apply list_elem_of_fmap in Hin as (r2 & Heq & Hr2).
      rewrite Hsplit, fmap_app, fmap_cons in Hndg.
      apply NoDup_app in Hndg as (_ & Hdisj & [Hk' _]%NoDup_cons).
      assert (g r2 = g keeper) as Hg by (unfold g; simpl; by injection Heq as -> _).
      apply elem_of_app in Hr2 as [Hr2 | Hr2].
      * apply (Hdisj (g r2)); [apply list_elem_of_fmap; eauto |]. rewrite Hg. by left.
      * apply Hk'. rewrite <- Hg. apply list_elem_of_fmap. eauto.
    + intros r Hr. apply Hplan, elem_of_find_duplicates. exists d.
      rewrite Hinv. unfold Reorg.duplicates_of.
      rewrite bool_decide_eq_true_2 by (rewrite Hgroup, length_fmap; lia).
      rewrite Hsorted. simpl. apply list_elem_of_fmap. exists (Reorg.abs_path r).
      split; [done |]. apply list_elem_of_fmap. exists (f r). split; [done |].
      rewrite Htl. apply list_elem_of_fmap. eauto.
Qed.

Lemma newest_of_each_digest_is_kept_witness :
  let recs := Examples.twin_scan.1 in
  let dup_paths := Reorg.find_duplicates true Examples.twin_scan.2 in
  let planned r := Reorg.action (Reorg.plan_record ["repo"] true dup_paths r).1 in
  let group := filter (λ r, Reorg.sha256 r = Some "h1") recs in
  ∃ pre keeper post,
    group = pre ++ keeper :: post
    ∧ (∀ r, r ∈ pre → Reorg.mtime r < Reorg.mtime keeper)
    ∧ (∀ r, r ∈ post → Reorg.mtime r ≤ Reorg.mtime keeper)
    ∧ planned keeper ≠ Reorg.MOVE_TO_ARCHIVE_DUPLICATE
    ∧ ∀ r, r ∈ pre ++ post → planned r = Reorg.MOVE_TO_ARCHIVE_DUPLICATE.
Proof.
  intros recs dup_paths planned group.
  assert (NoDup ((Path.resolve ∘ Reorg.e_path) <$> Examples.twin_entries)) as Hnd.
  { apply (bool_decide_unpack _). vm_compute. exact I. }
  assert (Reorg.scan ["repo"] true Examples.twin_entries
          = Ok (Examples.twin_scan.1, Examples.twin_scan.2)) as Hscan.
  { vm_compute. reflexivity. }
  apply (proj2 (newest_of_each_digest_is_kept ["repo"] Examples.twin_entries
                  Examples.twin_scan.1 Examples.twin_scan.2 "h1" Hnd Hscan)).
  vm_compute. lia.
Defined.


(** ** The plan *)

(** The move a decided record stands for *)
Definition move_of (root : list string) (r : Reorg.FileRecord)
    : option (list string * list string) :=
  match Reorg.action r, Reorg.dest_rel_path r with
  | Reorg.KEEP_IN_PLACE, _ => None
  | _, Some dest_rel => Some (Reorg.abs_path r, Path.joinpath root dest_rel)
  | _, None => None
  end.

(** A decided record keeps what the scan measured. *)
Definition same_file (r r' : Reorg.FileRecord) : Prop :=
  Reorg.rel_path r' = Reorg.rel_path r
  ∧ Reorg.abs_path r' = Reorg.abs_path r
  ∧ Reorg.size r' = Reorg.size r
  ∧ Reorg.mtime r' = Reorg.mtime r
  ∧ Reorg.sha256 r' = Reorg.sha256 r.

Lemma plan_record_shape root hashing dup_paths rec :
  let out := Reorg.plan_record root hashing dup_paths rec in
  same_file rec out.1
  ∧ is_Some (Reorg.dest_rel_path out.1)
  ∧ out.2 = option_list (move_of root out.1)
  ∧ (Reorg.action out.1 = Reorg.KEEP_IN_PLACE →
     Reorg.dest_rel_path out.1 = Some (Reorg.normalize_rel root (Reorg.abs_path rec))).
Proof.
  unfold Reorg.plan_record, same_file, move_of.
  destruct (hashing && _).
  { cbn. repeat split; eauto; done. }
  destruct (Reorg.truthy _ && _).
  { cbn. repeat split; eauto; done. }
  destruct (Reorg.choose_destination root _ _) as [dest why].
  case_bool_decide as Hkeep.
  { cbn. repeat split; eauto. by rewrite Hkeep. }
  destruct (Py.startswith "archive/_unknown_review/" dest);
    cbn; repeat split; eauto; done.
Qed.

(** The plan decides every record: each keeps its path, size, time and
    digest and gets a destination; the planned moves are, in scan order,
    the records not kept in place, each from its path to its destination
    under the root; and a record kept in place has its own path as
    destination. *)
Theorem plan_matches_records root hashing dup_paths records :
  let out := Reorg.plan root hashing dup_paths records in
  Forall2 same_file records out.1
  ∧ Forall (λ r, is_Some (Reorg.dest_rel_path r)) out.1
  ∧ out.2 = omap (move_of root) out.1
  ∧ Forall (λ r, Reorg.action r = Reorg.KEEP_IN_PLACE →
                 Reorg.dest_rel_path r
                 = Some (Reorg.normalize_rel root (Reorg.abs_path r))) out.1.
Proof.
  unfold Reorg.plan. cbn [fst snd].
  induction records as [|rec records (IH1 & IH2 & IH3 & IH4)]; [by repeat split |].
  rewrite !fmap_cons. cbn [concat omap].
  destruct (plan_record_shape root hashing dup_paths rec) as (Hsame & Hdest & Hmove & Hkeep).
  cbn zeta in *. rewrite Hmove, IH3.
  repeat split.
  - by constructor.
  - by constructor.
  - destruct (move_of root (Reorg.plan_record root hashing dup_paths rec).1) eqn:Hm;
      cbn [omap list_omap option_list app]; by rewrite Hm.
  - constructor; [| done]. intros Ha. rewrite (Hkeep Ha).
    by destruct Hsame as (_ & -> & _).
Qed.

Lemma plan_matches_records_witness :
  let out := Reorg.plan ["repo"] true
               (Reorg.find_duplicates true Examples.twin_scan.2) Examples.twin_scan.1 in
  out.2 = omap (move_of ["repo"]) out.1
  ∧ out.2 = [(["repo"; "a"; "x.txt"], ["repo"; "archive"; "_duplicates"; "x.txt"]);
             (["repo"; "b"; "y.txt"], ["repo"; "docs"; "misc"; "y.txt"]);
             (["repo"; "b"; "z.txt"], ["repo"; "archive"; "_duplicates"; "z.txt"])].
Proof.
  intros out. split; [| vm_compute; reflexivity].
  apply (plan_matches_records ["repo"] true
           (Reorg.find_duplicates true Examples.twin_scan.2) Examples.twin_scan.1).
Defined.

(** ** Where the classifier sends files *)

(** The directories the rules of [choose_destination] name *)
Definition layout_prefixes : list string :=
  ["Build_plan/"; "spec/"; "docs/"; "tools/"; "src/"; "Build_plan/assets/";
   "docs/assets/"; "fixtures/"; "golden/"; "docs/misc/"; "archive/_unknown_review/"].

Ltac in_list := apply list_elem_of_In; simpl; tauto.

Ltac next_rule :=
  lazymatch goal with
  | |- context [if ?c then _ else _] => destruct c eqn:?
  end.

(** Every destination is the path itself (for a file already under
    [build_plan/], whatever the case of the letters) or one of the eleven
    layout directories followed by the file name; it is never absolute,
    so the move stays under the root. *)
Theorem destination_in_layout root rel name :
  let dest := (Reorg.choose_destination root rel name).1 in
  ((Py.startswith "build_plan/" (Py.lower rel) = true
    ∧ dest = Py.replace_char "\" "/" rel)
   ∨ ∃ prefix, prefix ∈ layout_prefixes
       ∧ (dest = prefix +:+ name ∨ dest = prefix +:+ Path.name (Path.parse_parts name)))
  ∧ root `prefix_of` Path.joinpath root dest.
Proof.
  cbn zeta.
  assert (∀ dest, (Py.startswith "build_plan/" (Py.lower rel) = true
                   ∧ dest = Py.replace_char "\" "/" rel)
                  ∨ (∃ prefix, prefix ∈ layout_prefixes
                       ∧ (dest = prefix +:+ name
                          ∨ dest = prefix +:+ Path.name (Path.parse_parts name))) →
                  root `prefix_of` Path.joinpath root dest) as Hbelow.
  { intros dest Hdest. unfold Path.joinpath.
    assert (Path.is_absolute dest = false) as ->; [| by apply prefix_app_r].
    destruct Hdest as [[Hbp ->] | (prefix & Hin & Hdest)].
    - destruct rel as [|c rel]; [done |]. cbn [Py.lower Py.startswith] in Hbp.
      apply andb_true_iff in Hbp as [Hc%bool_decide_eq_true _].
      unfold Path.is_absolute. cbn [Py.replace_char Py.startswith].
      destruct (decide (c = "\"%char)) as [-> | Hback]; [by vm_compute in Hc |].
      rewrite (bool_decide_eq_false_2 (c = "\"%char)) by done.
      case_bool_decide as Hslash; [subst c; by vm_compute in Hc | done].
    - unfold layout_prefixes in Hin.
      repeat (apply elem_of_cons in Hin as [-> | Hin]);
        [by destruct Hdest as [-> | ->].. | by apply elem_of_nil in Hin]. }
  match goal with |- ?P ∧ _ => assert P as Hdest; [| split; [done | by apply Hbelow]] end.
  unfold Reorg.choose_destination, layout_prefixes.
  next_rule. { right. exists "Build_plan/". split; [in_list | by left]. }
  next_rule. { left. split; reflexivity. }
  next_rule. { right. exists "Build_plan/". split; [in_list | by right]. }
  next_rule.
  { next_rule.
    - right. exists "spec/". split; [in_list | by right].
    - right. exists "docs/". split; [in_list | by right]. }
  next_rule. { right. exists "spec/". split; [in_list | by right]. }
  next_rule.
  { next_rule.
    - right. exists "tools/". split; [in_list | by right].
    - right. exists "src/". split; [in_list | by right]. }
  next_rule.
  { next_rule.
    - right. exists "Build_plan/assets/". split; [in_list | by right].
    - right. exists "docs/assets/". split; [in_list | by right]. }
  next_rule. { right. exists "fixtures/". split; [in_list | by right]. }
  next_rule. { right. exists "golden/". split; [in_list | by right]. }
  next_rule. { right. exists "docs/misc/". split; [in_list | by right]. }
  right. exists "archive/_unknown_review/". split; [in_list | by right].
Qed.

(** A file under [golden/] does not rest there: unless it is archived
    as a duplicate, or [build_plan] occurs in its path, the planner
    archives it as not needed, because [golden] contains the token
    [old]. *)
Theorem golden_files_are_archived root hashing dup_paths rec (t : string) :
  Py.lower (Reorg.rel_path rec) = "golden/" +:+ t →
  Py.contains "build_plan" t = false →
  hashing && bool_decide (Path.resolve (Reorg.abs_path rec) ∈ dup_paths) = false →
  let out := Reorg.plan_record root hashing dup_paths rec in
  Reorg.action out.1 = Reorg.MOVE_TO_ARCHIVE_NOT_NEEDED
  ∧ out.2 = [(Reorg.abs_path rec,
              Path.joinpath root ("archive/_not_needed/" +:+ Path.name (Reorg.abs_path rec)))].
Proof.
  intros Hrel Hbp Hdup. unfold Reorg.plan_record. rewrite Hdup, Hrel.
  assert (Py.startswith "archive/" ("golden/" +:+ t) = false) as -> by done.
  assert (Reorg.truthy (Reorg.classify_not_needed (Reorg.abs_path rec) (Reorg.rel_path rec))
          = true) as ->; [| done].
  unfold Reorg.classify_not_needed. rewrite Hrel.
  destruct (bool_decide (_ ∈ Reorg.NOT_NEEDED_EXTENSIONS)).
  { cbn [Reorg.truthy]. by rewrite negb_true_iff, bool_decide_eq_false, append_cons. }
  assert (Reorg.any_in ["old"; "backup"; "export"; "exports"; "tmp"; "temp"]
            ("golden/" +:+ t) = true) as ->.
  { apply any_in_spec. exists "old". split; [in_list |]. by exists "g", ("en/" +:+ t). }
  assert (Py.contains "build_plan" ("golden/" +:+ t) = false) as ->; [| done].
  destruct (Py.contains "build_plan" ("golden/" +:+ t)) eqn:Hc; [| done].
  rewrite <- Hbp. clear Hbp.
  repeat (rewrite append_cons in Hc; cbn [Py.contains] in Hc;
          apply orb_true_iff in Hc as [Hc | Hc]; [by vm_compute in Hc |]).
  by rewrite append_nil_l in Hc.
Qed.

Lemma golden_files_are_archived_witness :
  let rec := Reorg.mkFileRecord "golden/run1.dat" ["repo"; "golden"; "run1.dat"] 5 100
               None Reorg.KEEP_IN_PLACE "" None in
  let out := Reorg.plan_record ["repo"] false ∅ rec in
  Reorg.action out.1 = Reorg.MOVE_TO_ARCHIVE_NOT_NEEDED
  ∧ out.2 = [(["repo"; "golden"; "run1.dat"],
              Path.joinpath ["repo"] ("archive/_not_needed/" +:+ "run1.dat"))].
Proof.
  intros rec out.
  apply (golden_files_are_archived ["repo"] false ∅ rec "run1.dat");
    vm_compute; reflexivity.
Defined.

(** ** More on the best candidate *)

(** A candidate in the directory of the referencing document beats
    every candidate elsewhere: when there is one, the chosen candidate
    lies in that directory. *)
Theorem same_directory_candidate_wins current_html candidates c best :
  c ∈ candidates →
  Path.resolve (Path.parent c) = Path.resolve (Path.parent current_html) →
  Polish.choose_best_candidate current_html candidates = Some best →
  Path.resolve (Path.parent best) = Path.resolve (Path.parent current_html).
Proof.
  intros Hc Hsame Hbest. unfold Polish.choose_best_candidate in Hbest.
  set (cur_dir := Path.resolve (Path.parent current_html)) in *.
  assert (candidates ≠ []) as Hne by (intros ->; by apply elem_of_nil in Hc).
  destruct (sorted_reverse_head (Polish.score cur_dir) triple_le
              triple_le_total triple_le_trans candidates Hne)
    as (b & pre & post & -> & Hhd & Hpre & Hpost).
  rewrite Hhd in Hbest. injection Hbest as ->.
  assert (triple_le (Polish.score cur_dir c) (Polish.score cur_dir best) = true) as Hle.
  { apply elem_of_app in Hc as [Hc | [-> | Hc]%elem_of_cons].
    - destruct (triple_le_total (Polish.score cur_dir c) (Polish.score cur_dir best))
        as [? | Hbc]; [done |]. by rewrite (Hpre c Hc) in Hbc.
    - by destruct (triple_le_total (Polish.score cur_dir best) (Polish.score cur_dir best)).
    - by apply Hpost. }
  unfold Polish.score, triple_le in Hle.
  rewrite (bool_decide_eq_true_2 _ Hsame) in Hle.
  destruct (bool_decide (Path.resolve (Path.parent best) = cur_dir)) eqn:Hb;
    [by apply bool_decide_eq_true in Hb | done].
Qed.

Lemma same_directory_candidate_wins_witness :
  Path.resolve (Path.parent ["repo"; "Build_plan"; "m3"; "zz.html"])
  = Path.resolve (Path.parent ["repo"; "Build_plan"; "m3"; "page.html"]).
Proof.
  apply (same_directory_candidate_wins ["repo"; "Build_plan"; "m3"; "page.html"]
           [["repo"; "Build_plan"; "aa.html"]; ["repo"; "Build_plan"; "m3"; "zz.html"]]
           ["repo"; "Build_plan"; "m3"; "zz.html"] ["repo"; "Build_plan"; "m3"; "zz.html"]).
  - apply list_elem_of_In. simpl. tauto.
  - vm_compute. reflexivity.
  - vm_compute. reflexivity.
Defined.

(** ** What the polisher writes *)

Section polisher_writes.
Context `{Urllib}.





End polisher_writes.


(** ** The filename index *)

Lemma build_filename_index_lookup fs listing idx (k : string) :
  default [] (Polish.build_filename_index fs listing idx !! k)
  = default [] (idx !! k)
    ++ (Path.resolve <$> filter (λ p, FS.is_file fs p = true ∧ Py.lower (Path.name p) = k)
                           listing).
Proof.
  revert idx. induction listing as [|p listing IH]; intros idx; simpl.
  - by rewrite app_nil_r.
  - destruct (FS.is_file fs p) eqn:Hfile.
    + rewrite IH. destruct (decide (Py.lower (Path.name p) = k)) as [<- | Hne].
      * rewrite lookup_insert_eq, filter_cons_True by done. simpl.
        by rewrite <- app_assoc.
      * rewrite lookup_insert_ne by done. rewrite filter_cons_False by tauto. done.
    + rewrite IH. rewrite filter_cons_False; [done |]. intros [? _]. congruence.
Qed.

Lemma build_filename_index_nonempty fs listing idx (k : string) :
  idx !! k ≠ Some [] → Polish.build_filename_index fs listing idx !! k ≠ Some [].
Proof.
  revert idx. induction listing as [|p listing IH]; intros idx Hidx; simpl; [done |].
  destruct (FS.is_file fs p); [| by apply IH].
  apply IH. destruct (decide (Py.lower (Path.name p) = k)) as [<- | Hne].
  - rewrite lookup_insert_eq. intros [= Hnil]. by apply app_nil in Hnil as [_ ?].
  - by rewrite lookup_insert_ne.
Qed.

(** Under a key the index holds, in listing order, the resolved paths
    of the listed regular files whose lower-cased name is the key, and
    nothing else; a key without such a file is absent, so an empty
    candidate list always means a missing key. *)
Theorem filename_index_lists_files fs listing (k : string) :
  let idx := Polish.build_filename_index fs listing ∅ in
  default [] (idx !! k)
  = Path.resolve <$> filter (λ p, FS.is_file fs p = true ∧ Py.lower (Path.name p) = k) listing
  ∧ idx !! k ≠ Some []
  ∧ (∀ p, p ∈ listing → FS.is_file fs p = true →
          Path.resolve p ∈ default [] (idx !! Py.lower (Path.name p))).
Proof.
  cbn zeta. split; [| split].
  - by rewrite build_filename_index_lookup, lookup_empty.
  - apply build_filename_index_nonempty. by rewrite lookup_empty.
  - intros p Hp Hfile. rewrite build_filename_index_lookup, lookup_empty. simpl.
    apply list_elem_of_fmap. exists p. split; [done |].
    by apply list_elem_of_filter.
Qed.

Lemma filename_index_lists_files_witness :
  ["r"; "Build_plan"; "m7"; "overview.html"]
  ∈ default [] (Polish.build_filename_index Examples.plan_tree Examples.plan_listing ∅
                  !! "overview.html").
Proof.
  apply (proj2 (proj2 (filename_index_lists_files Examples.plan_tree Examples.plan_listing
                         "overview.html")) ["r"; "Build_plan"; "m7"; "overview.html"]).
  - apply list_elem_of_In. simpl. tauto.
  - vm_compute. reflexivity.
Defined.

(** ** From the suggestion back to the candidate *)

(** A component of a resolved path: not empty, not [.] or [..], and
    without slash or backslash *)
Definition plain (c : string) : Prop :=
  c ≠ "" ∧ c ≠ "." ∧ c ≠ ".."
  ∧ Py.find_char "/" c = None ∧ Py.find_char "\" c = None.

Lemma find_char_app a s t :
  Py.find_char a (s +:+ t) = None ↔ Py.find_char a s = None ∧ Py.find_char a t = None.
Proof.
  induction s as [|c s IH]; [rewrite append_nil_l; naive_solver |].
  rewrite append_cons. cbn [Py.find_char]. case_bool_decide; [naive_solver |].
  rewrite !fmap_None. done.
Qed.

Lemma replace_char_absent a b s : Py.find_char a s = None → Py.replace_char a b s = s.
Proof.
  induction s as [|c s IH]; [done |]. cbn [Py.find_char Py.replace_char].
  case_bool_decide; [done |]. rewrite fmap_None. intros ?%IH. congruence.
Qed.

Lemma find_char_join a sep xs :
  Py.find_char a sep = None → Forall (λ c, Py.find_char a c = None) xs →
  Py.find_char a (Py.join sep xs) = None.
Proof.
  intros Hsep. induction 1 as [|x xs Hx Hxs IH]; [done |].
  destruct xs as [|y xs]; [done |]. cbn [Py.join].
  apply find_char_app. split; [done |]. apply find_char_app. split; [done |]. apply IH.
Qed.

Lemma split_char_absent c s : Py.find_char c s = None → Py.split_char c s = [s].
Proof.
  induction s as [|a s IH]; [done |]. cbn [Py.find_char Py.split_char].
  case_bool_decide; [done |]. rewrite fmap_None. intros ->%IH. done.
Qed.

Lemma split_char_app c s t :
  Py.find_char c s = None →
  Py.split_char c (s +:+ String c t) = s :: Py.split_char c t.
Proof.
  induction s as [|a s IH].
  - intros _. rewrite append_nil_l. cbn [Py.split_char]. by rewrite bool_decide_eq_true_2.
  - rewrite append_cons. cbn [Py.find_char Py.split_char].
    case_bool_decide; [done |]. rewrite fmap_None. intros ->%IH. done.
Qed.

Lemma split_join xs :
  xs ≠ [] → Forall (λ c, Py.find_char "/" c = None) xs →
  Py.split_char "/" (Py.join "/" xs) = xs.
Proof.
  intros Hne Hall. induction Hall as [|x xs Hx Hxs IH]; [done |].
  destruct xs as [|y xs]; [by apply split_char_absent |].
  cbn [Py.join]. change ("/" +:+ ?t) with (String "/" t).
  rewrite split_char_app by done. f_equal. by apply IH.
Qed.

Lemma parse_parts_join xs :
  Forall (λ c, c ≠ "" ∧ c ≠ "." ∧ Py.find_char "/" c = None) xs →
  Path.parse_parts (Py.join "/" xs) = xs.
Proof.
  intros Hall. destruct (decide (xs = [])) as [-> | Hne]; [done |].
  unfold Path.parse_parts. rewrite split_join; [| done |].
  - induction Hall as [|x xs Hx Hxs IH]; [done |].
    rewrite filter_cons_True by tauto. f_equal.
    destruct (decide (xs = [])) as [-> | ?]; [done | by apply IH].
  - eapply Forall_impl; [done |]. naive_solver.
Qed.








(** ** The matches of ATTR_RE *)

Lemma drop_drop_string a b s : Py.drop a (Py.drop b s) = Py.drop (b + a) s.
Proof.
  revert s. induction b as [|b IH]; intros s; [done |].
  destruct s as [|c s]; [by destruct a | apply IH].
Qed.

Lemma drop_eq_cons n s c t :
  Py.drop n s = String c t → t = Py.drop (S n) s ∧ (n < String.length s)%nat.
Proof.
  revert s. induction n as [|n IH]; intros [|x s]; simpl; try done.
  - intros [= -> ->]. split; [done | lia].
  - intros [-> ?]%IH. split; [done | lia].
Qed.

Lemma length_take_string n s :
  String.length (Py.take n s) = min n (String.length s).
Proof. revert s. induction n as [|n IH]; intros [|c s]; simpl; auto. Qed.

Lemma span_len_take P s a :
  Py.find_char a (Py.take (Polish.span_len P s) s) = None ∨ P a = true.
Proof.
  destruct (P a) eqn:Ha; [by right | left].
  induction s as [|c s IH]; [done |]. cbn [Polish.span_len].
  destruct (P c) eqn:Hc; [| done]. cbn [Py.take Py.find_char].
  rewrite bool_decide_eq_false_2 by congruence. by rewrite IH.
Qed.

(** What a match of [ATTR_RE] at the head of [s] looks like *)
Lemma match_at_inv prev s a v off len :
  Polish.match_at prev s = Some (a, v, off, len) →
  (Py.lower a = "href" ∨ Py.lower a = "src")
  ∧ v ≠ ""
  ∧ Py.find_char "034" v = None ∧ Py.find_char "039" v = None
  ∧ Py.take (String.length v) (Py.drop off s) = v
  ∧ (off + String.length v < String.length s)%nat
  ∧ len = (off + String.length v + 1)%nat.
Proof.
  unfold Polish.match_at.
  destruct (Polish.match_attr_name prev s) as [n|] eqn:Hname; [| done].
  set (s1 := Py.drop n s).
  set (w1 := Polish.span_len Py.is_space s1).
  destruct (Py.drop w1 s1) as [|eq s2] eqn:Hs2; [done |].
  destruct (decide (eq = "="%char)) as [-> | Hne];
    [| by destruct eq as [[] [] [] [] [] [] [] []]].
  set (w2 := Polish.span_len Py.is_space s2).
  destruct (Py.drop w2 s2) as [|q s3] eqn:Hs3; [done |].
  destruct (Polish.is_quote q); [| done].
  set (k := Polish.span_len (λ c, negb (Polish.is_quote c)) s3).
  destruct k as [|k'] eqn:Hk; [done |].
  destruct (Py.drop (S k') s3) as [|c3 s4] eqn:Hs4; [done |].
  intros [= <- <- <- <-].
  apply drop_eq_cons in Hs2 as [-> _]. apply drop_eq_cons in Hs3 as [Hs3 _].
  apply drop_eq_cons in Hs4 as [_ Hlen].
  unfold s1 in Hs3. rewrite !drop_drop_string in Hs3.
  assert (String.length (Py.take (S k') s3) = S k') as Hv.
  { rewrite length_take_string. lia. }
  split.
  { unfold Polish.match_attr_name in Hname.
    destruct (negb _); [done |].
    destruct (bool_decide (Py.lower (Py.take 4 s) = "href") && _) eqn:Hh.
    - injection Hname as <-. apply andb_true_iff in Hh as [?%bool_decide_eq_true _]. by left.
    - destruct (bool_decide (Py.lower (Py.take 3 s) = "src") && _) eqn:Hsrc; [| done].
      injection Hname as <-. apply andb_true_iff in Hsrc as [?%bool_decide_eq_true _].
      by right. }
  split; [by destruct s3 |].
  change (match s3 with
          | "" => ""
          | String a s' => String a (Py.take k' s')
          end) with (Py.take (S k') s3).
  replace (n + w1 + 1 + w2 + 1)%nat with (n + (S w1 + S w2))%nat by lia.
  rewrite Hv, <- Hs3.
  split; [| split; [| split; [done | split; [| done]]]].
  - rewrite <- Hk. unfold k.
    by destruct (span_len_take (λ c, negb (Polish.is_quote c)) s3 "034").
  - rewrite <- Hk. unfold k.
    by destruct (span_len_take (λ c, negb (Polish.is_quote c)) s3 "039").
  - rewrite Hs3 in Hlen. rewrite length_drop_string in Hlen. lia.
Qed.

(** What holds of one match in a text *)
Definition is_span (text : string) (m : Polish.Match) : Prop :=
  (Py.lower (Polish.m_attr m) = "href" ∨ Py.lower (Polish.m_attr m) = "src")
  ∧ Polish.m_val m ≠ ""
  ∧ Py.find_char "034" (Polish.m_val m) = None
  ∧ Py.find_char "039" (Polish.m_val m) = None
  ∧ Polish.m_end m = (Polish.m_start m + String.length (Polish.m_val m))%nat
  ∧ (Polish.m_end m < String.length text)%nat
  ∧ Py.take (Polish.m_end m - Polish.m_start m) (Py.drop (Polish.m_start m) text)
    = Polish.m_val m.

(** Matches one after the other, each starting behind the end of the
    one before, and none before [lo] *)
Fixpoint apart (lo : nat) (ms : list Polish.Match) : Prop :=
  match ms with
  | [] => True
  | m :: rest => (lo ≤ Polish.m_start m)%nat ∧ (Polish.m_start m ≤ Polish.m_end m)%nat
                 ∧ apart (S (Polish.m_end m)) rest
  end.

Lemma finditer_from_spans text s pos prev skip :
  s = Py.drop pos text →
  Forall (is_span text) (Polish.finditer_from pos prev skip s)
  ∧ apart (pos + skip) (Polish.finditer_from pos prev skip s).
Proof.
  revert pos prev skip. induction s as [|c s IH]; intros pos prev skip Hs; [done |].
  symmetry in Hs. pose proof Hs as Hs'. apply drop_eq_cons in Hs' as [Hs' Hpos].
  cbn [Polish.finditer_from]. destruct skip as [|skip].
  - destruct (Polish.match_at prev (String c s)) as [[[[a v] off] len]|] eqn:Hm.
    + apply match_at_inv in Hm as (Ha & Hv & Hq1 & Hq2 & Htake & Hlen & ->).
      destruct (IH (S pos) (Some c) (off + String.length v + 1 - 1)%nat Hs') as [IHf IHa].
      split.
      * constructor; [| done]. unfold is_span. cbn.
        rewrite <- Hs, drop_drop_string in Htake.
        replace (pos + off + String.length v - (pos + off))%nat
          with (String.length v) by lia.
        rewrite <- Hs, length_drop_string in Hlen.
        repeat split; try done. lia.
      * cbn. split; [lia |]. split; [lia |].
        replace (S (pos + off + String.length v))
          with (S pos + (off + String.length v + 1 - 1))%nat by lia. done.
    + destruct (IH (S pos) (Some c) 0%nat Hs') as [IHf IHa]. split; [done |].
      destruct (Polish.finditer_from _ _ _ _) as [|m rest]; [done |].
      cbn in *. destruct IHa as (? & ? & ?). repeat split; [lia | done | done].
  - destruct (IH (S pos) (Some c) skip Hs') as [IHf IHa]. split; [done |].
    by replace (pos + S skip)%nat with (S pos + skip)%nat by lia.
Qed.

Lemma apart_lookup lo ms i j m1 m2 :
  apart lo ms → ms !! i = Some m1 → ms !! j = Some m2 → (i < j)%nat →
  (Polish.m_end m1 < Polish.m_start m2)%nat.
Proof.
  assert (∀ lo ms j m, apart lo ms → ms !! j = Some m → (lo ≤ Polish.m_start m)%nat) as Hlo.
  { clear. intros lo ms. revert lo. induction ms as [|x ms IH]; intros lo [|j] m; simpl;
      try done.
    - by intros (? & _) [= ->].
    - intros (? & ? & Hrest) Hm. specialize (IH _ _ _ Hrest Hm). lia. }
  revert lo i j. induction ms as [|x ms IH]; intros lo i j Hap Hi Hj Hij; [done |].
  destruct j as [|j]; [lia |]. destruct Hap as (_ & _ & Hrest). simpl in Hj.
  destruct i as [|i]; simpl in Hi.
  - injection Hi as ->. specialize (Hlo _ _ _ _ Hrest Hj). lia.
  - apply (IH _ i j Hrest Hi Hj). lia.
Qed.

(** Every match of [ATTR_RE] in a text names [href] or [src] in some
    letter case; its value is not empty and holds no quote character; its
    span lies inside the text and holds the value; and the matches come
    in text order without overlap, each starting behind the closing quote
    of the one before. *)
Theorem attribute_matches_are_spans (text : string) :
  Forall (is_span text) (Polish.finditer text)
  ∧ ∀ i j m1 m2,
      Polish.finditer text !! i = Some m1 → Polish.finditer text !! j = Some m2 →
      (i < j)%nat → (Polish.m_end m1 < Polish.m_start m2)%nat.
Proof.
  destruct (finditer_from_spans text text 0 None 0 eq_refl) as [Hspans Hapart].
  split; [done |]. intros i j m1 m2. by apply apart_lookup with (lo := 0%nat).
Qed.

Lemma attribute_matches_are_spans_witness :
  (Polish.m_end (Polish.mkMatch "href" "overview.html" 9 22)
   < Polish.m_start (Polish.mkMatch "href" "notes.html" 39 49))%nat.
Proof.
  apply (proj2 (attribute_matches_are_spans Examples.two_links) 0%nat 1%nat);
    [vm_compute; reflexivity | vm_compute; reflexivity | lia].
Defined.

(** ** Rewriting a document *)

(** The text from [pos] on with each span replaced by its new value,
    read from left to right *)
Fixpoint rebuild (text : string) (pos : nat) (rs : list (nat * nat * string)) : string :=
  match rs with
  | [] => Py.drop pos text
  | (start, end_, new_val) :: rest =>
      Py.drop pos (Py.take start text) +:+ new_val +:+ rebuild text end_ rest
  end.

(** Spans one after the other from [lo] on, inside a text of length [len] *)
Fixpoint spans_from (lo len : nat) (rs : list (nat * nat * string)) : Prop :=
  match rs with
  | [] => True
  | (start, end_, _) :: rest =>
      (lo ≤ start)%nat ∧ (start ≤ end_)%nat ∧ (end_ ≤ len)%nat ∧ spans_from (S end_) len rest
  end.

Lemma spans_from_weaken lo lo' len rs :
  (lo' ≤ lo)%nat → spans_from lo len rs → spans_from lo' len rs.
Proof. destruct rs as [|[[s e] n] rest]; simpl; [done |]. intros ? (? & ? & ? & ?). auto with lia. Qed.

Lemma take_take_string a b s : Py.take a (Py.take b s) = Py.take (min a b) s.
Proof.
  revert b s. induction a as [|a IH]; intros [|b] [|c s]; simpl; try done.
  by rewrite IH.
Qed.

Lemma take_app_le_string a s t :
  (a ≤ String.length s)%nat → Py.take a (s +:+ t) = Py.take a s.
Proof.
  revert s. induction a as [|a IH]; intros s Hle; [done |].
  destruct s as [|c s]; [simpl in Hle; lia |].
  rewrite append_cons. cbn [Py.take]. rewrite IH; [done | simpl in Hle; lia].
Qed.

Lemma drop_app_le_string a s t :
  (a ≤ String.length s)%nat → Py.drop a (s +:+ t) = Py.drop a s +:+ t.
Proof.
  revert s. induction a as [|a IH]; intros s Hle; [done |].
  destruct s as [|c s]; [simpl in Hle; lia |].
  rewrite append_cons. cbn [Py.drop]. apply IH. simpl in Hle. lia.
Qed.

(** The sort by start, last first, of spans in text order is their
    reversal. *)
Lemma sort_spans lo len (acc rs : list (nat * nat * string)) :
  spans_from lo len rs →
  (∀ y, head acc = Some y → (y.1.1 < lo)%nat) →
  foldl (λ a x, insert_behind (λ r : nat * nat * string, r.1.1) (λ ky kx, Nat.leb kx ky) x a)
    acc rs
  = rev rs ++ acc.
Proof.
  revert lo acc. induction rs as [|[[s e] n] rest IH]; intros lo acc; simpl; [done |].
  intros (Hlo & Hse & _ & Hrest) Hacc.
  assert (insert_behind (λ r : nat * nat * string, r.1.1) (λ ky kx, Nat.leb kx ky)
            (s, e, n) acc = (s, e, n) :: acc) as ->.
  { destruct acc as [|y acc]; [done |]. simpl.
    specialize (Hacc y eq_refl). rewrite (proj2 (Nat.leb_gt s y.1.1)); [done | lia]. }
  rewrite (IH (S e)); [by rewrite <- app_assoc | done |].
  intros y [= <-]. simpl. lia.
Qed.

Lemma splice_is_fold text rs :
  spans_from 0 (String.length text) rs →
  Polish.splice text rs
  = foldl (λ new_text (r : nat * nat * string),
             let '(start, end_, new_val) := r in
             Py.take start new_text +:+ new_val +:+ Py.drop end_ new_text)
      text (rev rs).
Proof.
  intros Hspans. unfold Polish.splice, sorted_reverse, sort_stable.
  rewrite (sort_spans 0 (String.length text) [] rs Hspans) by done.
  by rewrite app_nil_r.
Qed.

Lemma fold_rebuild text pos rs :
  spans_from pos (String.length text) rs →
  let new_text :=
    foldl (λ new_text (r : nat * nat * string),
             let '(start, end_, new_val) := r in
             Py.take start new_text +:+ new_val +:+ Py.drop end_ new_text)
      text (rev rs) in
  Py.take pos new_text = Py.take pos text ∧ Py.drop pos new_text = rebuild text pos rs.
Proof.
  revert pos. induction rs as [|[[s e] n] rest IH]; intros pos; simpl; [done |].
  intros (Hlo & Hse & Hlen & Hrest).
  rewrite foldl_snoc.
  destruct (IH e (spans_from_weaken _ _ _ _ (Nat.le_succ_diag_r e) Hrest)) as [Htake Hdrop].
  cbn zeta in Htake, Hdrop.
  set (inner := foldl _ text (rev rest)) in *.
  assert (Py.take s inner = Py.take s text) as ->.
  { replace s with (min s e) by lia. rewrite <- !take_take_string. by rewrite Htake. }
  assert (String.length (Py.take s text) = s) as Hs.
  { rewrite length_take_string. lia. }
  rewrite Hdrop. split.
  - rewrite take_app_le_string by lia. rewrite take_take_string. f_equal. lia.
  - rewrite drop_app_le_string by lia. done.
Qed.

(** With spans in text order that do not overlap, applying the
    replacements from the last to the first gives the text with each span
    replaced and everything between the spans as it was. *)
Theorem splice_replaces_spans (text : string) (rs : list (nat * nat * string)) :
  spans_from 0 (String.length text) rs → Polish.splice text rs = rebuild text 0 rs.
Proof.
  intros Hspans. rewrite splice_is_fold by done.
  by destruct (fold_rebuild text 0 rs Hspans) as [_ Hdrop].
Qed.

Lemma splice_replaces_spans_witness :
  Polish.splice "<a href='a.html'> <img src='b.png'>" [(9%nat, 15%nat, "../x/a.html"); (28%nat, 33%nat, "c.png")]
  = "<a href='../x/a.html'> <img src='c.png'>".
Proof.
  rewrite splice_replaces_spans; [vm_compute; reflexivity |].
  simpl. lia.
Defined.

Section rewritten_document.
Context `{Urllib}.

Lemma scan_matches_spans repo idx fs f lo len ms acc acc' :
  apart lo ms → Forall (λ m, (Polish.m_end m ≤ len)%nat) ms →
  Polish.scan_matches repo idx fs f acc ms = Ok acc' →
  ∃ new, Polish.replacements acc' = Polish.replacements acc ++ new
         ∧ spans_from lo len new
         ∧ ∀ r, r ∈ new → ∃ m, m ∈ ms ∧ r.1 = (Polish.m_start m, Polish.m_end m).
Proof.
  revert lo acc. induction ms as [|m ms IH]; intros lo acc Hap Hlen;
    cbn [Polish.scan_matches].
  - intros [= <-]. exists []. rewrite app_nil_r.
    split; [done |]. split; [done |]. by intros r ?%elem_of_nil.
  - destruct (Polish.scan_match repo idx fs f acc m) as [acc1|] eqn:Hm; cbn [rbind]; [| done].
    destruct Hap as (Hlo & Hse & Hap). apply Forall_cons in Hlen as [Hm_len Hlen].
    intros (new & Hnew & Hspans & Hfrom)%(IH _ _ Hap Hlen).
    apply scan_match_inv in Hm as [-> | (_ & _ & _ & fl & dir & [-> | [new_val ->]])].
    + exists new. split; [done |]. split.
      * apply (spans_from_weaken (S (Polish.m_end m))); [lia | done].
      * intros r [m' [? ?]]%Hfrom. exists m'. split; [by right | done].
    + exists new. split; [done |]. split.
      * apply (spans_from_weaken (S (Polish.m_end m))); [lia | done].
      * intros r [m' [? ?]]%Hfrom. exists m'. split; [by right | done].
    + exists ((Polish.m_start m, Polish.m_end m, new_val) :: new). simpl in Hnew.
      split; [by rewrite Hnew, <- app_assoc |]. split; [by simpl |].
      intros r [-> | [m' [? ?]]%Hfrom]%elem_of_cons.
      * exists m. split; [by left | done].
      * exists m'. split; [by right | done].
Qed.

(** After an applied turn that ends well, the document is its old
    text with the spans of some of its matches replaced, taken from left
    to right, and each replaced span held the value of its match. *)
Theorem document_rewritten_span_by_span repo idx fs f issues fs' issues' (text : string) :
  FS.files fs !! f = Some text →
  Polish.process_document repo true idx fs f issues = (fs', Ok issues') →
  ∃ repls,
    spans_from 0 (String.length text) repls
    ∧ (∀ r, r ∈ repls →
         ∃ m, m ∈ Polish.finditer text
              ∧ r.1 = (Polish.m_start m, Polish.m_end m)
              ∧ Py.take (Polish.m_end m - Polish.m_start m) (Py.drop (Polish.m_start m) text)
                = Polish.m_val m)
    ∧ FS.files fs' !! f = Some (rebuild text 0 repls).
Proof.
  intros Htext. unfold Polish.process_document. rewrite Htext.
  destruct (Polish.scan_matches _ _ _ _ _ _) as [acc|] eqn:Hscan; [| done].
  destruct (finditer_from_spans text text 0 None 0 eq_refl) as [Hspans Hapart].
  fold (Polish.finditer text) in Hspans, Hapart.
  destruct (scan_matches_spans _ _ _ _ 0 (String.length text) _ _ _ Hapart
              ltac:(eapply Forall_impl; [exact Hspans |];
                    intros m (_ & _ & _ & _ & _ & ? & _); lia) Hscan)
    as (repls & Hrepls & Hfrom & Hmatch).
  simpl in Hrepls. subst repls.
  intros [= <- _]. exists (Polish.replacements acc). split; [done |]. split.
  - intros r [m [Hm Hr]]%Hmatch. exists m. split; [done |]. split; [done |].
    apply (Forall_forall (is_span text) _) in Hm; [| done]. apply Hm.
  - case_bool_decide as Hnil; simpl.
    + by rewrite Hnil.
    + unfold Polish.write_fixes, FS.write_text. simpl. rewrite lookup_insert_eq.
      rewrite splice_is_fold by done. f_equal.
      by destruct (fold_rebuild text 0 _ Hfrom) as [_ Hdrop].
Qed.

End rewritten_document.

Lemma document_rewritten_span_by_span_witness :
  let page := ["r"; "Build_plan"; "m3"; "page.html"] in
  let idx := Polish.build_filename_index Examples.two_links_tree Examples.first_listing ∅ in
  let turn := Polish.process_document (H := UrllibModel.urllib_model) ["r"] true idx
                Examples.two_links_tree page ([], []) in
  ∃ repls,
    spans_from 0 (String.length Examples.two_links) repls
    ∧ (∀ r, r ∈ repls →
         ∃ m, m ∈ Polish.finditer Examples.two_links
              ∧ r.1 = (Polish.m_start m, Polish.m_end m)
              ∧ Py.take (Polish.m_end m - Polish.m_start m)
                  (Py.drop (Polish.m_start m) Examples.two_links)
                = Polish.m_val m)
    ∧ FS.files turn.1 !! page = Some (rebuild Examples.two_links 0 repls).
Proof.
  intros page idx turn.
  assert (∃ out, turn.2 = Ok out) as [out Hout] by (eexists; vm_compute; reflexivity).
  apply (document_rewritten_span_by_span (H := UrllibModel.urllib_model)
           ["r"] idx Examples.two_links_tree page ([], []) turn.1 out Examples.two_links).
  - vm_compute. reflexivity.
  - rewrite <- Hout. apply surjective_pairing.
Defined.

(** * The reorganiser: scan, classifier and layout *)

(** ** Which files the scan passes over *)

(** For a path whose components below the root are not empty, not [.]
    or [..] and hold no slash or backslash, the scan records the entry exactly
    when it is no directory and no component below the root -- the name
    of the file included -- is the name of a skipped directory. *)
Theorem scan_skips_by_component root e :
  Forall plain (Path.relative_to root (Reorg.e_path e)) →
  recorded root e = true
  ↔ Reorg.e_is_dir e = false
    ∧ ∀ c, c ∈ Path.relative_to root (Reorg.e_path e) → c ∉ Reorg.SKIP_DIRS.
Proof.
  intros Hall. unfold recorded, Reorg.normalize_rel.
  set (comps := Path.relative_to root (Reorg.e_path e)) in *.
  assert (Path.parse_parts (Py.replace_char "\" "/" (Path.as_posix comps)) = comps) as ->.
  { destruct (decide (comps = [])) as [-> | Hne]; [done |].
    assert (Path.as_posix comps = Py.join "/" comps) as -> by by destruct comps.
    rewrite replace_char_absent.
    - apply parse_parts_join. eapply Forall_impl; [done |]. by intros c (? & ? & _ & ? & _).
    - apply find_char_join; [done |]. eapply Forall_impl; [done |]. by intros c (_ & _ & _ & _ & ?). }
  rewrite andb_true_iff, !negb_true_iff. unfold Reorg.is_in_skip_dir.
  split.
  - intros [Hdir Hskip]. split; [done |]. intros c Hin Hc.
    assert (existsb (λ part, bool_decide (part ∈ Reorg.SKIP_DIRS)) comps = true); [| congruence].
    apply existsb_exists. exists c. split; [by apply list_elem_of_In | by apply bool_decide_eq_true].
  - intros [Hdir Hskip]. split; [done |].
    destruct (existsb _ comps) eqn:Hex; [| done].
    apply existsb_exists in Hex as (c & Hin%list_elem_of_In & Hc%bool_decide_eq_true).
    by destruct (Hskip c Hin).
Qed.

Lemma scan_skips_by_component_witness :
  let e := Reorg.mkEntry ["repo"; "node_modules"; "pkg"; "index.js"] false None (Ok "") in
  recorded ["repo"] e = true
  ↔ Reorg.e_is_dir e = false
    ∧ ∀ c, c ∈ Path.relative_to ["repo"] (Reorg.e_path e) → c ∉ Reorg.SKIP_DIRS.
Proof.
  intros e. apply (scan_skips_by_component ["repo"] e). repeat constructor; done.
Defined.

(** ** Classifying a file where the classifier put it *)

Lemma lower_slash a b : Py.lower (a +:+ String "/" b) = Py.lower a +:+ String "/" (Py.lower b).
Proof. induction a as [|c a IH]; [done |]. rewrite append_cons. cbn [Py.lower]. by rewrite IH. Qed.

Lemma lower_app a b : Py.lower (a +:+ b) = Py.lower a +:+ Py.lower b.
Proof. induction a as [|c a IH]; [done |]. rewrite append_cons. cbn [Py.lower]. by rewrite IH. Qed.

Lemma startswith_slash k a b :
  Py.find_char "/" k = None →
  Py.startswith k (a +:+ String "/" b) = Py.startswith k a.
Proof.
  revert k. induction a as [|c a IH]; intros [|x k] Hk; try done.
  - cbn [Py.find_char] in Hk. rewrite append_nil_l. cbn [Py.startswith].
    destruct (bool_decide (x = "/"%char)); done.
  - cbn [Py.find_char] in Hk. rewrite append_cons. cbn [Py.startswith].
    destruct (bool_decide (x = "/"%char)); [done |]. apply fmap_None in Hk. by rewrite IH.
Qed.

Lemma contains_slash k a b :
  Py.find_char "/" k = None →
  Py.contains k (a +:+ String "/" b) = Py.contains k a || Py.contains k b.
Proof.
  intros Hk. induction a as [|c a IH].
  - rewrite append_nil_l. cbn [Py.contains].
    rewrite <- (startswith_slash k "" b Hk), orb_false_r. done.
  - rewrite append_cons. cbn [Py.contains]. rewrite <- append_cons.
    rewrite (startswith_slash k (String c a) b Hk), IH. by rewrite orb_assoc.
Qed.

Lemma any_in_slash ks a b :
  Forall (λ k, Py.find_char "/" k = None) ks →
  Reorg.any_in ks (a +:+ String "/" b) = Reorg.any_in ks a || Reorg.any_in ks b.
Proof.
  unfold Reorg.any_in. induction 1 as [|k ks Hk Hks IH]; [done |].
  cbn [existsb]. rewrite IH, contains_slash by done.
  destruct (Py.contains k a), (Py.contains k b), (existsb _ ks) , (existsb _ ks); done.
Qed.

Lemma any_in_suffix ks d n :
  Reorg.any_in ks (Py.lower (d +:+ n)) = false → Reorg.any_in ks (Py.lower n) = false.
Proof.
  intros Hno. apply not_true_iff_false. intros (k & Hin & a & b & Heq)%any_in_spec.
  apply not_true_iff_false in Hno. apply Hno. apply any_in_spec.
  exists k. split; [done |]. exists (Py.lower d +:+ a), b.
  by rewrite lower_app, Heq, append_assoc.
Qed.

Lemma replace_char_idemp a b s :
  Py.replace_char a b (Py.replace_char a b s) = Py.replace_char a b s.
Proof.
  induction s as [|c s IH]; [done |]. cbn [Py.replace_char]. rewrite IH. f_equal.
  destruct (bool_decide_reflect (c = a)) as [| Hc].
  - by destruct (bool_decide (b = a)).
  - by rewrite bool_decide_eq_false_2.
Qed.

Lemma startswith_lower_replace p s :
  Py.find_char "\" p = None →
  Py.startswith p (Py.lower s) = true →
  Py.startswith p (Py.lower (Py.replace_char "\" "/" s)) = true.
Proof.
  revert s. induction p as [|a p IH]; intros [|c s] Hp; try done.
  cbn [Py.find_char] in Hp.
  destruct (bool_decide_reflect (a = "\"%char)) as [| Ha]; [done |]. apply fmap_None in Hp.
  cbn [Py.lower Py.replace_char Py.startswith].
  intros [Hc%bool_decide_eq_true Hs]%andb_true_iff.
  destruct (bool_decide_reflect (c = "\"%char)) as [-> | Hback].
  - exfalso. apply Ha. by rewrite Hc.
  - rewrite (bool_decide_eq_true_2 _ Hc). by apply IH.
Qed.

Ltac rule_of H :=
  lazymatch type of H with
  | context [if ?c then _ else _] => destruct c eqn:?
  end.

Ltac lit_any_in a :=
  repeat match goal with
  | |- context [Reorg.any_in ?ks (Py.lower a)] =>
      let v := eval vm_compute in (Reorg.any_in ks (Py.lower a)) in
      change (Reorg.any_in ks (Py.lower a)) with v
  end.

Ltac no_slash := apply (bool_decide_unpack _); vm_compute; exact I.

Ltac settle name d :=
  lazymatch goal with
  | |- _ = ?P +:+ name =>
      first
        [ assert (Py.startswith "build_plan/" (Py.lower (P +:+ name)) = true) as ->
            by (rewrite lower_app; reflexivity);
          cbn [fst]; apply replace_char_absent; apply find_char_app;
          split; [reflexivity | assumption]
        | let a := eval vm_compute in (Py.take (Nat.pred (String.length P)) P) in
          let la := eval vm_compute in (Py.lower a) in
          change (P +:+ name) with (a +:+ String "/" name);
          rewrite lower_slash; rewrite !any_in_slash by no_slash;
          lit_any_in a;
          change (Py.lower a) with la;
          assert (Py.startswith "build_plan/" (la +:+ String "/" (Py.lower name)) = false)
            as -> by reflexivity;
          repeat match goal with
                 | H : Reorg.any_in ?ks (Py.lower (d +:+ name)) = false |- _ =>
                     apply any_in_suffix in H
                 end;
          repeat match goal with
                 | H : _ = true |- _ => rewrite H
                 | H : _ = false |- _ => rewrite H
                 end;
          reflexivity ]
  end.

Lemma choose_destination_settled root d name :
  name ≠ "" → name ≠ "." →
  Py.find_char "/" name = None → Py.find_char "\" name = None →
  (Reorg.choose_destination root (Reorg.choose_destination root (d +:+ name) name).1 name).1
  = (Reorg.choose_destination root (d +:+ name) name).1.
Proof.
  intros Hne Hdot Hslash Hback.
  assert (Path.name (Path.parse_parts name) = name) as Hbase.
  { change name with (Py.join "/" [name]) at 1.
    rewrite parse_parts_join; [done |]. by repeat constructor. }
  remember (Reorg.choose_destination root (d +:+ name) name).1 as dest eqn:Hd.
  unfold Reorg.choose_destination in Hd. rewrite Hbase in Hd.
  remember (Py.lower (Path.suffix (Path.parse_parts name))) as ext eqn:Hext.
  rule_of Hd.
  { cbn [fst] in Hd. subst dest. unfold Reorg.choose_destination.
    match goal with H : _ = true |- _ => by rewrite H end. }
  rule_of Hd.
  { cbn [fst] in Hd. subst dest. unfold Reorg.choose_destination.
    match goal with H : _ || _ = false |- _ => rewrite H end.
    rewrite startswith_lower_replace by done. cbn [fst]. apply replace_char_idemp. }
  destruct (bool_decide (ext = ".html")) eqn:Ehtml;
    destruct (bool_decide (ext ∈ ({[ ".json"; ".yaml"; ".yml" ]} : gset string))) eqn:Ejson;
    cbn [andb] in Hd.
  all: repeat rule_of Hd.
  all: cbn [fst] in Hd; subst dest; unfold Reorg.choose_destination;
    rewrite <- Hext, Hbase; clear Hext Hbase.
  all: match goal with H : _ || _ = false |- _ => rewrite H; clear H end.
  all: settle name d.
Qed.

(** The classifier stays with its answer: for a file name that is not
    empty, not [.] and holds no slash or backslash, and a relative path
    that ends with this name, the destination that [choose_destination]
    gives is classified to itself.  (The reason may change: a file sent
    to [Build_plan/] by a later rule is found there by rule 2.) *)
Theorem destination_is_settled root d name :
  name ≠ "" → name ≠ "." →
  Py.find_char "/" name = None → Py.find_char "\" name = None →
  let dest := (Reorg.choose_destination root (d +:+ name) name).1 in
  (Reorg.choose_destination root dest name).1 = dest.
Proof. apply choose_destination_settled. Qed.

Lemma destination_is_settled_witness :
  let dest := (Reorg.choose_destination ["repo"] ("drafts/" +:+ "api_contract.md")
                 "api_contract.md").1 in
  dest = "spec/api_contract.md"
  ∧ (Reorg.choose_destination ["repo"] dest "api_contract.md").1 = dest.
Proof.
  intros dest. split; [vm_compute; reflexivity |].
  apply (destination_is_settled ["repo"] "drafts/" "api_contract.md"); done.
Defined.

(** ** A second run *)








(** ** The layout after an applied run *)

Lemma mkdir_p_self fs p fs' : FS.mkdir_p fs p = Ok fs' → p ≠ [] → p ∈ FS.dirs fs'.
Proof.
  unfold FS.mkdir_p. destruct (existsb _ _); [done |].
  intros [= <-] Hne. simpl. apply elem_of_union_r, elem_of_list_to_set.
  unfold FS.ancestors_or_self. apply list_elem_of_fmap.
  exists (List.length p). split; [by rewrite firstn_all |].
  apply elem_of_seq. destruct p; [done | simpl; lia].
Qed.

Lemma safe_mkdirs_dirs fs ds fs' :
  Reorg.safe_mkdirs fs ds = (fs', None) →
  FS.dirs fs ⊆ FS.dirs fs' ∧ ∀ d, d ∈ ds → d ≠ [] → d ∈ FS.dirs fs'.
Proof.
  revert fs. induction ds as [|d ds IH]; intros fs; cbn [Reorg.safe_mkdirs].
  - intros [= <-]. split; [done |]. by intros d ?%elem_of_nil.
  - destruct (FS.mkdir_p fs d) as [fs1|] eqn:Hmk; [| done].
    intros [Hsub Hds]%IH. destruct (mkdir_p_files _ _ _ Hmk) as [_ Hsub1].
    split; [by etrans |].
    intros d' [-> | Hin]%elem_of_cons Hne; [| by apply Hds].
    apply Hsub. by apply (mkdir_p_self fs).
Qed.

Lemma move_file_dirs fs src dest : FS.dirs fs ⊆ FS.dirs (Reorg.move_file fs src dest).1.
Proof.
  destruct (move_file_cases fs src dest)
    as [(exc & -> & _) | (fs1 & [_ Hsub]%mkdir_p_files & [(exc & -> & _) | (c & t & _ & _ & ->)])];
    done.
Qed.

Lemma execute_moves_dirs rdir actions fs :
  FS.dirs fs ⊆ FS.dirs (Reorg.execute_moves rdir fs actions).1.
Proof.
  revert fs. induction actions as [|[src dst] actions IH]; intros fs;
    cbn [Reorg.execute_moves]; [done |].
  destruct (negb _); [apply IH |].
  destruct (Path.is_proper_ancestor _ _); [apply IH |].
  pose proof (move_file_dirs fs src dst) as Hmove.
  destruct (Reorg.move_file fs src dst) as [fs1 [exc|]]; [done |].
  etrans; [exact Hmove | apply IH].
Qed.

(** An applied run that ends without exception leaves the nine layout
    directories, the three archive directories and the report directory
    of the run as directories under the root, and removes no directory. *)
Theorem apply_creates_layout root stamp fs actions fs' :
  Reorg.apply_changes root stamp fs actions = (fs', None) →
  FS.dirs fs ⊆ FS.dirs fs'
  ∧ Reorg.report_dir root stamp ∈ FS.dirs fs'
  ∧ ∀ d, d ∈ Reorg.REPO_LAYOUT_KEYS ++ Reorg.ARCHIVE_SUBFOLDERS →
      Path.joinpath root d ∈ FS.dirs fs'.
Proof.
  unfold Reorg.apply_changes.
  destruct (Reorg.safe_mkdirs fs _) as [fs1 [exc|]] eqn:Hmk; [done |].
  apply safe_mkdirs_dirs in Hmk as [Hsub Hmade].
  intros Hrun.
  assert (FS.dirs fs1 ⊆ FS.dirs fs') as Hsub1.
  { pose proof (execute_moves_dirs (Reorg.report_dir root stamp) actions fs1) as Hex.
    by rewrite Hrun in Hex. }
  split; [by etrans |]. split.
  - apply Hsub1, Hmade; [| unfold Reorg.report_dir; by destruct root].
    apply elem_of_app. right. by apply list_elem_of_singleton.
  - intros d Hd. apply Hsub1, Hmade.
    + apply elem_of_app. left. by apply list_elem_of_fmap_2.
    + unfold Reorg.REPO_LAYOUT_KEYS, Reorg.ARCHIVE_SUBFOLDERS in Hd. cbn [app] in Hd.
      repeat (apply elem_of_cons in Hd as [-> | Hd]); [.. | by apply elem_of_nil in Hd].
      all: by destruct root.
Qed.

Lemma apply_creates_layout_witness :
  let run := Reorg.apply_changes ["repo"] "20260101_000000" Examples.crowded_tree
               [(["repo"; "inbox"; "a.md"], ["repo"; "docs"; "a.md"])] in
  FS.dirs Examples.crowded_tree ⊆ FS.dirs run.1
  ∧ Reorg.report_dir ["repo"] "20260101_000000" ∈ FS.dirs run.1
  ∧ ∀ d, d ∈ Reorg.REPO_LAYOUT_KEYS ++ Reorg.ARCHIVE_SUBFOLDERS →
      Path.joinpath ["repo"] d ∈ FS.dirs run.1.
Proof.
  intros run.
  apply (apply_creates_layout ["repo"] "20260101_000000" Examples.crowded_tree
           [(["repo"; "inbox"; "a.md"], ["repo"; "docs"; "a.md"])]).
  transitivity (run.1, run.2); [apply surjective_pairing |].
  apply (f_equal (pair run.1)). vm_compute. reflexivity.
Defined.
